(** * TripVerse community chat: a shallow embedding of the React handlers

    The development follows the three source units of the chat feature:
    - [src/pages/Community.tsx]            (module [Community]),
    - [src/components/ChatThread.tsx]      (modules [ChatThread] and
      [CreateGroupDialog], the file holds both components),
    - [GroupInfoDrawer]                    (module [GroupInfoDrawer]).

    Every handler is an [async] function that reads props and closure
    variables, awaits [axios] calls inside [try]/[catch]/[finally], and
    updates component state through React setters.  It is embedded as a
    computation in a small monad [M S] that threads the component state,
    records the observable effects (HTTP requests, [console.error],
    toasts, navigation, prop callbacks) in a trace, and propagates a
    rejected promise as an exception.  The answer of the server to each
    awaited request is an argument of the handler. *)

From Stdlib Require Import List Bool NArith ZArith Lia String Ascii.
From Stdlib Require Import DecimalString DecimalZ DecimalPos.
Import ListNotations.

Set Implicit Arguments.

(** ** JavaScript strings *)

(** A JavaScript string is a sequence of UTF-16 code units. *)
Definition jsstring : Type := list N.

(** An ASCII literal of the source, as code units. *)
Definition lit (s : string) : jsstring :=
  List.map N_of_ascii (list_ascii_of_string s).

(** [a === b] on strings. *)
Fixpoint str_eqb (a b : jsstring) : bool :=
  match a, b with
  | [], [] => true
  | x :: a', y :: b' => N.eqb x y && str_eqb a' b'
  | _, _ => false
  end.

(** Truthiness of a string: only the empty string is falsy. *)
Definition truthy (s : jsstring) : bool :=
  match s with
  | [] => false
  | _ :: _ => true
  end.

(** Truthiness of a possibly [undefined]/[null] string. *)
Definition truthy_opt (s : option jsstring) : bool :=
  match s with
  | Some s' => truthy s'
  | None => false
  end.

(** [a || b] where [a] may be undefined and [b] is a string. *)
Definition or_else (a : option jsstring) (b : jsstring) : jsstring :=
  match a with
  | Some (c :: s) => c :: s
  | _ => b
  end.

(** [a || b] where both may be undefined. *)
Definition or_opt (a b : option jsstring) : option jsstring :=
  match a with
  | Some (c :: s) => Some (c :: s)
  | _ => b
  end.

(** ECMAScript WhiteSpace and LineTerminator code points, the ones that
    [String.prototype.trim] strips: TAB, LF, VT, FF, CR, SP, NBSP,
    OGHAM SPACE MARK, EN QUAD .. HAIR SPACE, LS, PS, NNBSP, MMSP,
    IDEOGRAPHIC SPACE, ZWNBSP. *)
Definition isWhiteSpace (c : N) : bool :=
  ((9 <=? c) && (c <=? 13) || (c =? 32) || (c =? 160) || (c =? 5760)
   || (8192 <=? c) && (c <=? 8202) || (c =? 8232) || (c =? 8233)
   || (c =? 8239) || (c =? 8287) || (c =? 12288) || (c =? 65279))%N.

Fixpoint trimStart (s : jsstring) : jsstring :=
  match s with
  | [] => []
  | c :: s' => if isWhiteSpace c then trimStart s' else s
  end.

Definition trimEnd (s : jsstring) : jsstring :=
  rev (trimStart (rev s)).

(** [s.trim()] *)
Definition trim (s : jsstring) : jsstring :=
  trimEnd (trimStart s).

(** [n.toString()] for an integer identifier: its decimal numeral. *)
Definition toString (n : Z) : jsstring :=
  lit (NilEmpty.string_of_int (Z.to_int n)).

(** [Number(s)] only ever builds request bodies here; the number is kept
    as the expression that denotes it. *)
Inductive JsNumber : Type :=
| Number (s : jsstring).

(** ** Data model (the interfaces of [Community.tsx]) *)

Record Message : Type := mkMessage {
  msg_id : jsstring;
  sender : jsstring;
  content : jsstring;
  msg_timestamp : jsstring;
  isOwn : bool
}.

Record User : Type := mkUser {
  user_id : jsstring;
  user_name : jsstring;
  email : jsstring;
  avatarUrl : option jsstring
}.

(** A member object as the server sends it: the fields may sit at the
    top level or under [user]. *)
Record ServerUser : Type := mkServerUser {
  su_id : option Z;
  su_name : option jsstring;
  su_email : option jsstring
}.

Record ServerMember : Type := mkServerMember {
  sm_id : option Z;
  sm_name : option jsstring;
  sm_email : option jsstring;
  sm_user : option ServerUser
}.

(** [members: any[]] holds either server payload or a directory user. *)
Inductive MemberEntry : Type :=
| FromServer (m : ServerMember)
| FromUser (u : User).

Inductive ChatType : Type := GROUP | USER.

Record Chat : Type := mkChat {
  id : jsstring;
  name : jsstring;
  isGroup : bool;
  isFavorite : bool;
  unread : N;
  timestamp : jsstring;
  members : list MemberEntry;
  messages : list Message;
  type : option ChatType
}.

(** ** The API: response shapes of the external interface table *)

(** An element of [res.data.conversations]. *)
Record ServerConversation : Type := mkServerConversation {
  conv_id : Z;
  conv_name : option jsstring;
  conv_dmName : option jsstring;
  conv_type : jsstring;
  conv_updatedAt : option jsstring;
  conv_members : option (list MemberEntry)
}.

(** The [sender] of a server message, when present. *)
Record ServerSender : Type := mkServerSender {
  sender_name : option jsstring;
  sender_isMe : option bool
}.

(** An element of [res.data.messages]. *)
Record ServerMessage : Type := mkServerMessage {
  smsg_id : Z;
  smsg_content : jsstring;
  smsg_createdAt : jsstring;
  smsg_sender : option ServerSender
}.

(** [res.data.data] of POST /api/messages. *)
Record SentData : Type := mkSentData {
  sent_id : Z;
  sent_content : jsstring
}.

(** [res.data.group] of POST /api/conversations/group. *)
Record ServerGroup : Type := mkServerGroup {
  group_id : Z;
  group_name : jsstring;
  group_members : option (list MemberEntry)
}.

(** [res.data.conversation] of POST /api/conversations/dm. *)
Record ServerDm : Type := mkServerDm {
  dm_id : Z
}.

(** [res.data] of GET /api/auth/me. *)
Record ServerMe : Type := mkServerMe {
  me_id : Z
}.

(** The argument of [handleCreateGroup], also the body of the group POST. *)
Record GroupPayload : Type := mkGroupPayload {
  payload_name : jsstring;
  payload_memberIds : list JsNumber
}.

(** One constructor per row of the interface table. *)
Inductive Request : Type :=
| GET_auth_me
| GET_auth_all
| GET_conversations
| GET_messages (conversationId : jsstring)
| POST_messages (conversationId content : jsstring)
| POST_conversations_group (body : GroupPayload)
| POST_conversations_dm (userId : jsstring)
| GET_members (conversationId : jsstring)
| POST_members (conversationId : jsstring) (memberIds : list JsNumber)
| DELETE_member (conversationId memberId : jsstring)
| DELETE_conversation (conversationId : jsstring).

(** A rejected [axios] promise: a network error, or an HTTP status
    outside 2xx. *)
Inductive AxiosError : Type :=
| NetworkError
| HttpStatus (code : N).

(** What awaiting an [axios] call yields. *)
Inductive AxiosResult (T : Type) : Type :=
| Resolved (data : T)
| Rejected (err : AxiosError).

Arguments Resolved {T} data.
Arguments Rejected {T} err.

(** Calls of the props a component receives from its parent. *)
Inductive PropCall : Type :=
| onSendMessage (chatId message : jsstring)
| onCreateGroup (group : Chat)
| onClose.

(** Observable effects of a handler, in program order. *)
Inductive Event : Type :=
| Http (bearer : option jsstring) (r : Request)
| ConsoleError (label : jsstring) (err : AxiosError)
| ToastError (text : jsstring)
| ToastSuccess (text : jsstring)
| Navigate (path : jsstring)
| Callback (c : PropCall).

Definition isHttp (e : Event) : bool :=
  match e with
  | Http _ _ => true
  | _ => false
  end.

Definition isToast (e : Event) : bool :=
  match e with
  | ToastError _ | ToastSuccess _ => true
  | _ => false
  end.

Definition isConsoleError (e : Event) : bool :=
  match e with
  | ConsoleError _ _ => true
  | _ => false
  end.

(** ** The handler monad: state, trace and exceptions *)

Inductive Completion (A : Type) : Type :=
| Normal (a : A)
| Thrown (e : AxiosError).

Arguments Normal {A} a.
Arguments Thrown {A} e.

Definition M (S A : Type) : Type := S -> Completion A * S * list Event.

Definition ret {S A} (a : A) : M S A :=
  fun s => (Normal a, s, []).

Definition bind {S A B} (m : M S A) (k : A -> M S B) : M S B :=
  fun s =>
    match m s with
    | (Normal a, s', t) =>
        let '(r, s'', t') := k a s' in (r, s'', t ++ t')
    | (Thrown e, s', t) => (Thrown e, s', t)
    end.

(** [try { body } catch (error) { handler }] *)
Definition try_catch {S A} (body : M S A) (handler : AxiosError -> M S A)
  : M S A :=
  fun s =>
    match body s with
    | (Normal a, s', t) => (Normal a, s', t)
    | (Thrown e, s', t) =>
        let '(r, s'', t') := handler e s' in (r, s'', t ++ t')
    end.

(** [try { ... } finally { fin }] *)
Definition finally {S A} (body : M S A) (fin : M S unit) : M S A :=
  fun s =>
    let '(r, s', t) := body s in
    match fin s' with
    | (Normal _, s'', t') => (r, s'', t ++ t')
    | (Thrown e, s'', t') => (Thrown e, s'', t ++ t')
    end.

(** A React setter, with a functional update. *)
Definition modify {S} (f : S -> S) : M S unit :=
  fun s => (Normal tt, f s, []).

Definition emit {S} (e : Event) : M S unit :=
  fun s => (Normal tt, s, [e]).

(** [await axios.<method>(url, ..., { headers: { Authorization } })]:
    the request goes out, then the promise resolves or rejects. *)
Definition await {S T} (bearer : option jsstring) (r : Request)
    (reply : AxiosResult T) : M S T :=
  fun s =>
    match reply with
    | Resolved d => (Normal d, s, [Http bearer r])
    | Rejected e => (Thrown e, s, [Http bearer r])
    end.

Definition console_error {S} (label : string) (err : AxiosError) : M S unit :=
  emit (ConsoleError (lit label) err).

Definition toast_error {S} (text : string) : M S unit :=
  emit (ToastError (lit text)).

Definition toast_success {S} (text : jsstring) : M S unit :=
  emit (ToastSuccess text).

Definition navigate {S} (path : string) : M S unit :=
  emit (Navigate (lit path)).

Declare Scope handler_scope.
Delimit Scope handler_scope with handler.
Notation "x <- m ;; k" := (bind m (fun x => k))
  (at level 61, m at next level, right associativity) : handler_scope.
Notation "m ;; k" := (bind m (fun _ => k))
  (at level 61, right associativity) : handler_scope.
Notation "'try' b 'catch' h" := (try_catch b h)
  (at level 62, b at level 61, h at level 61) : handler_scope.

(** The state and the trace a handler leaves behind. *)
Definition state_of {S A} (r : Completion A * S * list Event) : S :=
  snd (fst r).

Definition trace_of {S A} (r : Completion A * S * list Event) : list Event :=
  snd r.

Definition requests_of {S A} (r : Completion A * S * list Event) : list Event :=
  filter isHttp (trace_of r).

(** A handler is re-created by every render and closes over the state
    values of that render; [with_render f] is the handler of the render
    that shows the current state, invoked in that state. *)
Definition with_render {S A} (f : S -> M S A) : M S A :=
  fun s => f s s.

(** [{ ...c, messages: ms }] and [{ ...c, isFavorite: b }] *)
Definition with_messages (c : Chat) (ms : list Message) : Chat :=
  {| id := id c; name := name c; isGroup := isGroup c;
     isFavorite := isFavorite c; unread := unread c;
     timestamp := timestamp c; members := members c;
     messages := ms; type := type c |}.

Definition with_isFavorite (c : Chat) (b : bool) : Chat :=
  {| id := id c; name := name c; isGroup := isGroup c;
     isFavorite := b; unread := unread c;
     timestamp := timestamp c; members := members c;
     messages := messages c; type := type c |}.

(** ** [src/pages/Community.tsx] *)

Module Community.

Inductive Filter : Type := all | favorites | groups | users_tab.

(** The [useState] cells of the component. *)
Record State : Type := mkState {
  activeFilter : Filter;
  selectedChatId : option jsstring;
  showGroupInfo : bool;
  showCreateGroup : bool;
  searchTerm : jsstring;
  chats : list Chat;
  users : list User;
  loading : bool
}.

Definition initial : State :=
  {| activeFilter := all; selectedChatId := None; showGroupInfo := false;
     showCreateGroup := false; searchTerm := []; chats := []; users := [];
     loading := true |}.

(** The state after one setter has run. *)
Definition with_selectedChatId (v : option jsstring) (s : State) : State :=
  {| activeFilter := activeFilter s; selectedChatId := v;
     showGroupInfo := showGroupInfo s; showCreateGroup := showCreateGroup s;
     searchTerm := searchTerm s; chats := chats s; users := users s;
     loading := loading s |}.

Definition with_showCreateGroup (v : bool) (s : State) : State :=
  {| activeFilter := activeFilter s; selectedChatId := selectedChatId s;
     showGroupInfo := showGroupInfo s; showCreateGroup := v;
     searchTerm := searchTerm s; chats := chats s; users := users s;
     loading := loading s |}.

Definition with_chats (f : list Chat -> list Chat) (s : State) : State :=
  {| activeFilter := activeFilter s; selectedChatId := selectedChatId s;
     showGroupInfo := showGroupInfo s; showCreateGroup := showCreateGroup s;
     searchTerm := searchTerm s; chats := f (chats s); users := users s;
     loading := loading s |}.

Definition with_users (v : list User) (s : State) : State :=
  {| activeFilter := activeFilter s; selectedChatId := selectedChatId s;
     showGroupInfo := showGroupInfo s; showCreateGroup := showCreateGroup s;
     searchTerm := searchTerm s; chats := chats s; users := v;
     loading := loading s |}.

Definition with_loading (v : bool) (s : State) : State :=
  {| activeFilter := activeFilter s; selectedChatId := selectedChatId s;
     showGroupInfo := showGroupInfo s; showCreateGroup := showCreateGroup s;
     searchTerm := searchTerm s; chats := chats s; users := users s;
     loading := v |}.

Definition setSelectedChatId (v : option jsstring) : M State unit :=
  modify (with_selectedChatId v).

Definition setShowCreateGroup (v : bool) : M State unit :=
  modify (with_showCreateGroup v).

(** [setChats((prev) => f(prev))]; [setChats(v)] is [setChats (fun _ => v)]. *)
Definition setChats (f : list Chat -> list Chat) : M State unit :=
  modify (with_chats f).

Definition setUsers (v : list User) : M State unit :=
  modify (with_users v).

Definition setLoading (v : bool) : M State unit :=
  modify (with_loading v).

Section Handlers.

(** [localStorage.getItem("token")] *)
Variable token : option jsstring.

(** [new Date(d).toLocaleTimeString([], { hour: "2-digit", minute:
    "2-digit" })]: the locale's rendering of a server date. *)
Variable localeTime : jsstring -> jsstring.

Local Open Scope handler_scope.

(** The entry built from one element of [res.data.conversations];
    [now] is the rendering of [Date.now()]. *)
Definition formatChat (now : jsstring) (conv : ServerConversation) : Chat :=
  {| id := toString (conv_id conv);
     name := or_else (conv_name conv)
               (or_else (conv_dmName conv) (lit "Conversation"));
     isGroup := str_eqb (conv_type conv) (lit "GROUP");
     isFavorite := false;
     unread := 0%N;
     timestamp := match conv_updatedAt conv with
                  | Some (c :: d) => localeTime (c :: d)
                  | _ => now
                  end;
     members := match conv_members conv with
                | Some ms => ms
                | None => []
                end;
     messages := [];
     type := Some GROUP |}.

(** The message built from one element of [res.data.messages]. *)
Definition formatMessage (m : ServerMessage) : Message :=
  {| msg_id := toString (smsg_id m);
     sender := or_else (match smsg_sender m with
                        | Some s => sender_name s
                        | None => None
                        end) (lit "Unknown");
     content := smsg_content m;
     msg_timestamp := localeTime (smsg_createdAt m);
     isOwn := match smsg_sender m with
              | Some s => match sender_isMe s with
                          | Some b => b
                          | None => false
                          end
              | None => false
              end |}.

Definition fetchConversations (now : jsstring)
    (reply : AxiosResult (option (list ServerConversation))) : M State unit :=
  finally
    (try
       (res <- await token GET_conversations reply ;;
        let data := match res with Some l => l | None => [] end in
        let formattedChats := List.map (formatChat now) data in
        setChats (fun _ => formattedChats))
     catch (fun error => console_error "Error fetching conversations:" error))
    (setLoading false).

Definition fetchAllUsers (reply : AxiosResult (list User)) : M State unit :=
  try
    (res <- await token GET_auth_all reply ;;
     setUsers res)
  catch (fun error => console_error "Error fetching users:" error).

(** The first [useEffect]: verify the session, then load.  The two
    loaders are started one after the other and never throw; their
    replies are processed in the order in which they were started. *)
Definition mountEffect (now : jsstring) (me : AxiosResult ServerMe)
    (convs : AxiosResult (option (list ServerConversation)))
    (dir : AxiosResult (list User)) : M State unit :=
  if negb (truthy_opt token) then navigate "/login"
  else
    try
      (_ <- await token GET_auth_me me ;;
       fetchConversations now convs ;;
       fetchAllUsers dir)
    catch (fun _ => navigate "/login").

(** The second [useEffect], run for the [selectedChatId] of a render. *)
Definition fetchMessagesEffect (selectedChatId : option jsstring)
    (reply : AxiosResult (list ServerMessage)) : M State unit :=
  match selectedChatId with
  | Some sid =>
      if negb (truthy sid) then ret tt
      else
        try
          (res <- await token (GET_messages sid) reply ;;
           setChats (fun prev =>
             List.map (fun chat =>
               if str_eqb (id chat) sid
               then with_messages chat (List.map formatMessage res)
               else chat) prev))
        catch (fun error => console_error "Error fetching messages:" error)
  | None => ret tt
  end.

Definition handleSendMessage (now : jsstring) (chatId content : jsstring)
    (reply : AxiosResult SentData) : M State unit :=
  if negb (truthy (trim content)) then ret tt
  else
    try
      (res <- await token (POST_messages chatId content) reply ;;
       let newMessage :=
         {| msg_id := toString (sent_id res);
            sender := lit "You";
            content := content;
            msg_timestamp := now;
            isOwn := true |} in
       setChats (fun prev =>
         List.map (fun c =>
           if str_eqb (id c) chatId
           then with_messages c (messages c ++ [newMessage])
           else c) prev))
    catch (fun error => console_error "Error sending message:" error).

Definition handleCreateGroup (now : jsstring) (newGroup : GroupPayload)
    (reply : AxiosResult ServerGroup) : M State unit :=
  try
    (group <- await token (POST_conversations_group newGroup) reply ;;
     setChats (fun prev =>
       {| id := toString (group_id group);
          name := group_name group;
          isGroup := true;
          isFavorite := false;
          unread := 0%N;
          timestamp := now;
          members := match group_members group with
                     | Some ms => ms
                     | None => []
                     end;
          messages := [];
          type := Some GROUP |} :: prev) ;;
     setShowCreateGroup false)
  catch (fun error =>
    console_error "Error creating group:" error ;;
    toast_error "Failed to create group").

(** [handleOpenDm] as created by the render [r]: the membership test
    reads the [chats] of that render, the update is functional. *)
Definition handleOpenDm_of (r : State) (now : jsstring) (user : User)
    (reply : AxiosResult ServerDm) : M State unit :=
  try
    (conversation <- await token (POST_conversations_dm (user_id user)) reply ;;
     let chatId := toString (dm_id conversation) in
     (if negb (existsb (fun c => str_eqb (id c) chatId) (chats r))
      then setChats (fun prev =>
             {| id := chatId;
                name := user_name user;
                isGroup := false;
                isFavorite := false;
                unread := 0%N;
                timestamp := now;
                members := [FromUser user];
                messages := [];
                type := Some USER |} :: prev)
      else ret tt) ;;
     setSelectedChatId (Some chatId))
  catch (fun error =>
    console_error "Error opening DM:" error ;;
    toast_error "Failed to open DM").

Definition handleOpenDm (now : jsstring) (user : User)
    (reply : AxiosResult ServerDm) : M State unit :=
  with_render (fun r => handleOpenDm_of r now user reply).

Definition handleToggleFavorite (chatId : option jsstring) : M State unit :=
  match chatId with
  | Some cid =>
      if negb (truthy cid) then ret tt
      else
        setChats (fun prev =>
          List.map (fun c =>
            if str_eqb (id c) cid
            then with_isFavorite c (negb (isFavorite c))
            else c) prev)
  | None => ret tt
  end.

(** [chats.find((c) => c.id === selectedChatId)] *)
Definition selectedChat (s : State) : option Chat :=
  match selectedChatId s with
  | Some sid => find (fun c => str_eqb (id c) sid) (chats s)
  | None => None
  end.

(** *** The wiring of the rendered view

    What the user can do once the view is rendered, each with the server
    replies it will meet.  After a handler has run the component renders
    again, and the second effect runs when [selectedChatId] has changed. *)

Inductive Action : Type :=
| Select (chatId : jsstring) (msgs : AxiosResult (list ServerMessage))
| OpenDm (now : jsstring) (user : User) (reply : AxiosResult ServerDm)
         (msgs : AxiosResult (list ServerMessage))
| Send (now : jsstring) (content : jsstring) (reply : AxiosResult SentData)
| CreateGroup (now : jsstring) (newGroup : GroupPayload)
              (reply : AxiosResult ServerGroup)
| ToggleFavorite (chatId : option jsstring).

Definition same_selection (a b : option jsstring) : bool :=
  match a, b with
  | Some x, Some y => str_eqb x y
  | None, None => true
  | _, _ => false
  end.

(** The dependency check of [useEffect(..., [selectedChatId])]. *)
Definition rerender (before : option jsstring)
    (msgs : AxiosResult (list ServerMessage)) : M State unit :=
  with_render (fun r =>
    if same_selection before (selectedChatId r) then ret tt
    else fetchMessagesEffect (selectedChatId r) msgs).

(** [Select] is [setSelectedChatId(item.id)] (a row of the list);
    [OpenDm] is [handleOpenDm(user)]; [Send] is the [onSendMessage] prop
    of the thread, which exists only for [selectedChat] and is called
    with its id; [CreateGroup] is the [onCreateGroup] prop of the dialog;
    [ToggleFavorite] is any of the star buttons. *)
Definition act (a : Action) : M State unit :=
  with_render (fun r =>
    match a with
    | Select chatId msgs =>
        setSelectedChatId (Some chatId) ;;
        rerender (selectedChatId r) msgs
    | OpenDm now user reply msgs =>
        handleOpenDm now user reply ;;
        rerender (selectedChatId r) msgs
    | Send now content reply =>
        match selectedChat r with
        | Some c => handleSendMessage now (id c) content reply
        | None => ret tt
        end
    | CreateGroup now newGroup reply => handleCreateGroup now newGroup reply
    | ToggleFavorite chatId => handleToggleFavorite chatId
    end).

Fixpoint acts (l : list Action) : M State unit :=
  match l with
  | [] => ret tt
  | a :: l' => act a ;; acts l'
  end.

(** A page load: the component mounts with its initial state, then the
    user acts. *)
Definition session (now : jsstring) (me : AxiosResult ServerMe)
    (convs : AxiosResult (option (list ServerConversation)))
    (dir : AxiosResult (list User)) (l : list Action)
  : Completion unit * State * list Event :=
  (mountEffect now me convs dir ;; acts l) initial.

End Handlers.

End Community.

(** ** [src/components/ChatThread.tsx], first component *)

Module ChatThread.

Record State : Type := mkState {
  messages : list Message;
  message : jsstring;
  loading : bool
}.

Definition setMessages (f : list Message -> list Message) : M State unit :=
  modify (fun s =>
    {| messages := f (messages s); message := message s;
       loading := loading s |}).

Definition setMessage (v : jsstring) : M State unit :=
  modify (fun s =>
    {| messages := messages s; message := v; loading := loading s |}).

Definition setLoading (v : bool) : M State unit :=
  modify (fun s =>
    {| messages := messages s; message := message s; loading := v |}).

Section Handlers.

Variable token : option jsstring.
Variable localeTime : jsstring -> jsstring.

(** Props: the open chat, and whether the parent passed [onSendMessage]. *)
Variable chat : Chat.
Variable hasOnSendMessage : bool.

Local Open Scope handler_scope.

Definition formatMessage (m : ServerMessage) : Message :=
  {| msg_id := toString (smsg_id m);
     sender := or_else (match smsg_sender m with
                        | Some s => sender_name s
                        | None => None
                        end) (lit "Unknown");
     content := smsg_content m;
     msg_timestamp := localeTime (smsg_createdAt m);
     isOwn := match smsg_sender m with
              | Some s => match sender_isMe s with
                          | Some b => b
                          | None => false
                          end
              | None => false
              end |}.

(** The effect on [chat.id]. *)
Definition fetchMessages (reply : AxiosResult (list ServerMessage))
  : M State unit :=
  if negb (truthy (id chat)) || negb (truthy_opt token) then ret tt
  else
    setLoading true ;;
    finally
      (try
         (res <- await token (GET_messages (id chat)) reply ;;
          let fetched := List.map formatMessage res in
          setMessages (fun _ => fetched))
       catch (fun err => console_error "Error fetching messages:" err))
      (setLoading false).

(** [message] is the input text of the render that created the handler:
    it is what goes to the server and, after [setMessage("")], still what
    is handed to the parent. *)
Definition handleSend (now : jsstring) (reply : AxiosResult SentData)
  : M State unit :=
  with_render (fun r =>
    let message := message r in
    if negb (truthy (trim message)) then ret tt
    else
      try
        (sent <- await token (POST_messages (id chat) message) reply ;;
         let newMessage :=
           {| msg_id := toString (sent_id sent);
              sender := lit "You";
              content := sent_content sent;
              msg_timestamp := now;
              isOwn := true |} in
         setMessages (fun prev => prev ++ [newMessage]) ;;
         setMessage [] ;;
         if hasOnSendMessage
         then emit (Callback (onSendMessage (id chat) message))
         else ret tt)
      catch (fun error => console_error "Error sending message:" error)).

End Handlers.

End ChatThread.

(** ** [src/components/ChatThread.tsx], second component *)

Module CreateGroupDialog.

Record State : Type := mkState {
  groupName : jsstring;
  selectedMembers : list jsstring;
  contacts : list User;
  loading : bool
}.

Definition setGroupName (v : jsstring) : M State unit :=
  modify (fun s =>
    {| groupName := v; selectedMembers := selectedMembers s;
       contacts := contacts s; loading := loading s |}).

Definition setSelectedMembers (v : list jsstring) : M State unit :=
  modify (fun s =>
    {| groupName := groupName s; selectedMembers := v;
       contacts := contacts s; loading := loading s |}).

Definition setContacts (v : list User) : M State unit :=
  modify (fun s =>
    {| groupName := groupName s; selectedMembers := selectedMembers s;
       contacts := v; loading := loading s |}).

Definition setLoading (v : bool) : M State unit :=
  modify (fun s =>
    {| groupName := groupName s; selectedMembers := selectedMembers s;
       contacts := contacts s; loading := v |}).

Section Handlers.

Variable token : option jsstring.

(** Prop [open]. *)
Variable open : bool.

Local Open Scope handler_scope.

(** The effect on [open] and [token]. *)
Definition fetchUsers (reply : AxiosResult (list User)) : M State unit :=
  if negb open || negb (truthy_opt token) then ret tt
  else
    try
      (res <- await token GET_auth_all reply ;;
       setContacts res)
    catch (fun error =>
      console_error "Error fetching users:" error ;;
      toast_error "Failed to load users.").

(** The click handler of a row of the member list. *)
Definition toggleMember (user : User) : M State unit :=
  with_render (fun r =>
    if existsb (str_eqb (user_id user)) (selectedMembers r)
    then setSelectedMembers
           (filter (fun i => negb (str_eqb i (user_id user)))
                   (selectedMembers r))
    else setSelectedMembers (selectedMembers r ++ [user_id user])).

Definition handleCreate (now : jsstring) (reply : AxiosResult ServerGroup)
  : M State unit :=
  with_render (fun r =>
    if negb (truthy (trim (groupName r)))
    then toast_error "Please enter a group name"
    else if (List.length (selectedMembers r) =? 0)%nat
    then toast_error "Please select at least one member"
    else
      setLoading true ;;
      finally
        (try
           (let payload :=
              {| payload_name := trim (groupName r);
                 payload_memberIds := List.map Number (selectedMembers r) |} in
            newGroup <- await token (POST_conversations_group payload) reply ;;
            emit (Callback (onCreateGroup
              {| id := toString (group_id newGroup);
                 name := group_name newGroup;
                 isGroup := true;
                 isFavorite := false;
                 unread := 0%N;
                 timestamp := now;
                 members := match group_members newGroup with
                            | Some ms => ms
                            | None => []
                            end;
                 messages := [];
                 type := None |})) ;;
            toast_success (lit "Group created successfully!") ;;
            setGroupName [] ;;
            setSelectedMembers [] ;;
            emit (Callback onClose))
         catch (fun error =>
           console_error "Error creating group:" error ;;
           toast_error "Failed to create group. Try again."))
        (setLoading false)).

End Handlers.

End CreateGroupDialog.

(** [a !== b] is [negb (strict_eq_opt a b)] on values that are a string
    or [undefined]. *)
Definition strict_eq_opt (a b : option jsstring) : bool :=
  match a, b with
  | Some x, Some y => str_eqb x y
  | None, None => true
  | _, _ => false
  end.

(** A value in a template literal: [undefined] prints as "undefined". *)
Definition template (v : option jsstring) : jsstring :=
  match v with
  | Some s => s
  | None => lit "undefined"
  end.

(** ** [GroupInfoDrawer] *)

Module GroupInfoDrawer.

Record Member : Type := mkMember {
  member_id : option jsstring;
  member_name : jsstring;
  member_email : option jsstring
}.

Record State : Type := mkState {
  members : list Member;
  loading : bool;
  adding : bool
}.

Definition initial : State :=
  {| members := []; loading := true; adding := false |}.

Definition setMembers (f : list Member -> list Member) : M State unit :=
  modify (fun s =>
    {| members := f (members s); loading := loading s; adding := adding s |}).

Definition setLoading (v : bool) : M State unit :=
  modify (fun s =>
    {| members := members s; loading := v; adding := adding s |}).

Definition setAdding (v : bool) : M State unit :=
  modify (fun s =>
    {| members := members s; loading := loading s; adding := v |}).

Section Handlers.

Variable token : option jsstring.

(** Props [group] (the selected chat, if any) and [open]. *)
Variable group : option Chat.
Variable open : bool.

Local Open Scope handler_scope.

(** [{ id: m.user?.id?.toString() || m.id?.toString(), name: ..., email:
    ... }] *)
Definition normalize (m : ServerMember) : Member :=
  {| member_id :=
       or_opt (match sm_user m with
               | Some u => option_map toString (su_id u)
               | None => None
               end)
              (option_map toString (sm_id m));
     member_name :=
       or_else (match sm_user m with
                | Some u => su_name u
                | None => None
                end)
               (or_else (sm_name m) (lit "Unknown"));
     member_email :=
       Some (or_else (match sm_user m with
                      | Some u => su_email u
                      | None => None
                      end)
                     (or_else (sm_email m) [])) |}.

(** The effect on [group] and [open]. *)
Definition fetchMembers (reply : AxiosResult (list ServerMember))
  : M State unit :=
  match group with
  | Some g =>
      if negb open then ret tt
      else
        setLoading true ;;
        finally
          (try
             (res <- await token (GET_members (id g)) reply ;;
              let normalizedMembers := List.map normalize res in
              setMembers (fun _ => normalizedMembers))
           catch (fun error =>
             console_error "Error fetching members:" error ;;
             toast_error "Failed to load group members"))
          (setLoading false)
  | None => ret tt
  end.

(** [answer] is what [prompt("Enter user ID to add:")] returns. *)
Definition handleAddMembers (answer : option jsstring)
    (reply : AxiosResult unit) : M State unit :=
  match group with
  | Some g =>
      setAdding true ;;
      finally
        (try
           (match answer with
            | Some (c :: d) =>
                let newMemberId := c :: d in
                _ <- await token
                       (POST_members (id g) [Number newMemberId]) reply ;;
                toast_success (lit "Member added successfully!") ;;
                setMembers (fun prev =>
                  prev ++ [ {| member_id := Some newMemberId;
                               member_name := lit "User " ++ newMemberId;
                               member_email := None |} ])
            | _ => ret tt
            end)
         catch (fun error =>
           console_error "Error adding member:" error ;;
           toast_error "Failed to add member"))
        (setAdding false)
  | None => ret tt
  end.

(** [memberId] is [member.id] of the row, [undefined] for a member that
    came without an id. *)
Definition handleRemoveMember (memberId : option jsstring)
    (memberName : jsstring) (reply : AxiosResult unit) : M State unit :=
  match group with
  | Some g =>
      try
        (_ <- await token (DELETE_member (id g) (template memberId)) reply ;;
         toast_success (memberName ++ lit " removed from group") ;;
         setMembers (fun prev =>
           filter (fun m => negb (strict_eq_opt (member_id m) memberId))
                  prev))
      catch (fun error =>
        console_error "Error removing member:" error ;;
        toast_error "Failed to remove member")
  | None => ret tt
  end.

(** The remove button of a member row:
    [handleRemoveMember(member.id, member?.name || "Unknown")]. *)
Definition removeClick (member : Member) (reply : AxiosResult unit)
  : M State unit :=
  handleRemoveMember (member_id member)
    (or_else (Some (member_name member)) (lit "Unknown")) reply.

Definition handleLeaveGroup (me : AxiosResult ServerMe)
    (reply : AxiosResult unit) : M State unit :=
  match group with
  | Some g =>
      try
        (me' <- await token GET_auth_me me ;;
         let myId := me_id me' in
         _ <- await token (DELETE_member (id g) (toString myId)) reply ;;
         toast_success (lit "You left the group") ;;
         emit (Callback onClose))
      catch (fun error =>
        console_error "Error leaving group:" error ;;
        toast_error "Failed to leave group")
  | None => ret tt
  end.

Definition handleDeleteGroup (reply : AxiosResult unit) : M State unit :=
  match group with
  | Some g =>
      try
        (_ <- await token (DELETE_conversation (id g)) reply ;;
         toast_success (lit "Group deleted successfully") ;;
         emit (Callback onClose))
      catch (fun error =>
        console_error "Error deleting group:" error ;;
        toast_error "Failed to delete group")
  | None => ret tt
  end.

End Handlers.

End GroupInfoDrawer.

(** ** Vocabulary of the statements *)

(** What a trace shows about a failure. *)
Definition logged {S A} (r : Completion A * S * list Event) : bool :=
  existsb isConsoleError (trace_of r).

Definition noticed {S A} (r : Completion A * S * list Event) : bool :=
  existsb isToast (trace_of r).

(** The identifiers of a chat list, in order. *)
Definition ids (l : list Chat) : list jsstring := List.map id l.

(** [c'] is [c] with the message [m] added at the end of its list, every
    other field as it was. *)
Definition gained (m : Message) (c c' : Chat) : Prop :=
  messages c' = messages c ++ [m] /\
  id c' = id c /\ name c' = name c /\ isGroup c' = isGroup c /\
  isFavorite c' = isFavorite c /\ unread c' = unread c /\
  timestamp c' = timestamp c /\ members c' = members c /\
  type c' = type c.

(** [c'] differs from [c] at most in its favorite flag. *)
Definition same_but_favorite (c c' : Chat) : Prop :=
  id c' = id c /\ name c' = name c /\ isGroup c' = isGroup c /\
  unread c' = unread c /\ timestamp c' = timestamp c /\
  members c' = members c /\ messages c' = messages c /\ type c' = type c.

(** ** Sample values, to run the handlers on *)

Definition sample_chat (n : Z) : Chat :=
  {| id := toString n; name := lit "Goa trip"; isGroup := true;
     isFavorite := false; unread := 0%N; timestamp := lit "10:15";
     members := []; messages := []; type := Some GROUP |}.

Definition sample_state : Community.State :=
  Community.with_chats (fun _ => [sample_chat 7; sample_chat 8])
    Community.initial.

Definition sample_thread : ChatThread.State :=
  {| ChatThread.messages := []; ChatThread.message := lit " hi ";
     ChatThread.loading := false |}.


(** ** Lazily loaded messages: the invariant of a session *)

(** The messages of conversation [cid] have been requested. *)
Definition opened (token : option jsstring) (tr : list Event)
    (cid : jsstring) : Prop :=
  In (Http token (GET_messages cid)) tr.

(** Every entry has a non-empty id, and an entry holds messages only if
    its conversation has been opened. *)
Definition chats_lazy (token : option jsstring) (st : Community.State)
    (tr : list Event) : Prop :=
  (forall c, In c (Community.chats st) -> truthy (id c) = true) /\
  (forall c, In c (Community.chats st) -> messages c <> [] ->
             opened token tr (id c)).

(** The messages of the selected conversation have been requested. *)
Definition selection_opened (token : option jsstring) (st : Community.State)
    (tr : list Event) : Prop :=
  forall sid, Community.selectedChatId st = Some sid -> truthy sid = true ->
              opened token tr sid.

Definition lazy_inv (token : option jsstring) (st : Community.State)
    (tr : list Event) : Prop :=
  chats_lazy token st tr /\ selection_opened token st tr.

(** ** Failure reports *)

(** The failure was written to the console and no toast was shown. *)
Definition logged_only {S A} (r : Completion A * S * list Event) : Prop :=
  logged r = true /\ noticed r = false.

(** The failure was written to the console and a toast was shown. *)
Definition logged_and_noticed {S A} (r : Completion A * S * list Event)
  : Prop :=
  logged r = true /\ noticed r = true.

(** The handler did call the API. *)
Definition called {S A} (r : Completion A * S * list Event) : Prop :=
  requests_of r <> [].

(** The action brought the messages of conversation [cid] from the
    server: a message fetch for it that resolved. *)
Definition fetched_by (cid : jsstring) (a : Community.Action) : bool :=
  match a with
  | Community.Select chatId (Resolved _) => str_eqb chatId cid
  | Community.OpenDm _ _ (Resolved conversation) (Resolved _) =>
      str_eqb (toString (dm_id conversation)) cid
  | _ => false
  end.

(** ** [localStorage] *)

(** The origin's storage: keys with their values. *)
Definition Storage : Type := list (jsstring * jsstring).

(** [localStorage.getItem(k)] *)
Definition getItem (k : jsstring) (s : Storage) : option jsstring :=
  option_map snd (find (fun kv => str_eqb (fst kv) k) s).

(** [localStorage.removeItem(k)] *)
Definition removeItem (k : jsstring) (s : Storage) : Storage :=
  filter (fun kv => negb (str_eqb (fst kv) k)) s.

(** ** [TopNavbar] *)

Module TopNavbar.

(** The saved user as the component reads it: only [name] is looked at. *)
Record SavedUser : Type := mkSavedUser {
  saved_name : option jsstring
}.

(** The [user] cell of the component, and the storage it writes to. *)
Record State : Type := mkState {
  user : option SavedUser;
  localStorage : Storage
}.

Definition setUser (v : option SavedUser) : M State unit :=
  modify (fun s => {| user := v; localStorage := localStorage s |}).

Definition localStorage_removeItem (k : string) : M State unit :=
  modify (fun s =>
    {| user := user s; localStorage := removeItem (lit k) (localStorage s) |}).

Local Open Scope handler_scope.

Definition handleLogout : M State unit :=
  localStorage_removeItem "user" ;;
  setUser None ;;
  navigate "/login".

End TopNavbar.

(** [const token = localStorage.getItem("token")], as [Community] and
    its children read it on every render. *)
Definition stored_token (s : Storage) : option jsstring :=
  getItem (lit "token") s.

(** ** The thread inside the community view

    [Community] renders [<ChatThread chat={selectedChat}
    onSendMessage={handleSendMessage} />] when [selectedChat] exists. *)

Module CommunityView.

Record State : Type := mkState {
  community : Community.State;
  thread : ChatThread.State
}.

Section Wiring.

Variable token : option jsstring.

(** The parent runs [handleSendMessage] for every [onSendMessage] call
    in the trace of the child; [reply] is what its POST meets. *)
Fixpoint deliver (now : jsstring) (reply : AxiosResult SentData)
    (t : list Event) (cs : Community.State)
  : Community.State * list Event :=
  match t with
  | [] => (cs, [])
  | Callback (onSendMessage chatId message) :: t' =>
      let '(_, cs1, t1) :=
        Community.handleSendMessage token now chatId message reply cs in
      let '(cs2, t2) := deliver now reply t' cs1 in
      (cs2, Callback (onSendMessage chatId message) :: t1 ++ t2)
  | e :: t' =>
      let '(cs2, t2) := deliver now reply t' cs in
      (cs2, e :: t2)
  end.

(** A click on the send button of the rendered thread: [reply] answers
    the POST of the thread, [reply'] the POST of the parent. *)
Definition sendClick (now : jsstring) (reply reply' : AxiosResult SentData)
    (v : State) : State * list Event :=
  match Community.selectedChat (community v) with
  | Some chat =>
      let '(_, th, t) :=
        ChatThread.handleSend token chat true now reply (thread v) in
      let '(cs, t') := deliver now reply' t (community v) in
      ({| community := cs; thread := th |}, t')
  | None => (v, [])
  end.

(** [handleKeyDown]: [if (e.key === "Enter") handleSend()] *)
Definition handleKeyDown (key : jsstring) (now : jsstring)
    (reply reply' : AxiosResult SentData) (v : State) : State * list Event :=
  if str_eqb key (lit "Enter") then sendClick now reply reply' v
  else (v, []).

End Wiring.

End CommunityView.

(** ** The loading screen

    [if (loading) return <div>Loading conversations...</div>]: while
    [loading] holds nothing of the view is rendered, so no handler can
    be reached. *)

Definition gated_act (token : option jsstring)
    (localeTime : jsstring -> jsstring) (a : Community.Action)
  : M Community.State unit :=
  with_render (fun r =>
    if Community.loading r then ret tt
    else Community.act token localeTime a).

Fixpoint gated_acts (token : option jsstring)
    (localeTime : jsstring -> jsstring) (l : list Community.Action)
  : M Community.State unit :=
  match l with
  | [] => ret tt
  | a :: l' =>
      bind (gated_act token localeTime a)
           (fun _ => gated_acts token localeTime l')
  end.

Definition gated_session (token : option jsstring)
    (localeTime : jsstring -> jsstring) (now : jsstring)
    (me : AxiosResult ServerMe)
    (convs : AxiosResult (option (list ServerConversation)))
    (dir : AxiosResult (list User)) (l : list Community.Action)
  : Completion unit * Community.State * list Event :=
  bind (Community.mountEffect token localeTime now me convs dir)
       (fun _ => gated_acts token localeTime l) Community.initial.

(** ** Vocabulary of the further statements *)

(** A string neither starts nor ends with white space. *)
Definition no_outer_space (s : jsstring) : Prop :=
  match s with
  | [] => True
  | c :: t => isWhiteSpace c = false /\ isWhiteSpace (last t c) = false
  end.

(** The member carries the id [i]. *)
Definition has_member_id (i : jsstring) (m : GroupInfoDrawer.Member) : Prop :=
  GroupInfoDrawer.member_id m = Some i.

(** An entry of type [USER] is a direct chat with exactly the user it
    was opened for. *)
Definition user_row_ok (c : Chat) : Prop :=
  type c = Some USER ->
  isGroup c = false /\
  exists u, members c = [FromUser u] /\ name c = user_name u.

(** ** The lists the page renders *)

(** [s.startsWith(p)] *)
Fixpoint startsWith (s p : jsstring) {struct p} : bool :=
  match p, s with
  | [], _ => true
  | x :: p', y :: s' => N.eqb x y && startsWith s' p'
  | _ :: _, [] => false
  end.

(** [s.includes(sub)] *)
Fixpoint includes (s sub : jsstring) : bool :=
  startsWith s sub ||
  match s with
  | [] => false
  | _ :: s' => includes s' sub
  end.

Module CommunityLists.

Section Lists.

(** [String.prototype.toLowerCase]: the Unicode case mapping. *)
Variable toLowerCase : jsstring -> jsstring.

(** [name.toLowerCase().includes(searchTerm.toLowerCase())] *)
Definition matches (searchTerm : jsstring) (item : Chat) : bool :=
  includes (toLowerCase (name item)) (toLowerCase searchTerm).

Definition filteredChats (s : Community.State) : list Chat :=
  filter (matches (Community.searchTerm s)) (Community.chats s).

(** The row that stands for a directory user in the "All" tab. *)
Definition userRow (u : User) : Chat :=
  {| id := lit "user-" ++ user_id u;
     name := user_name u;
     isGroup := false;
     isFavorite := false;
     unread := 0%N;
     timestamp := [];
     members := [FromUser u];
     messages := [];
     type := Some USER |}.

Definition combinedAll (s : Community.State) : list Chat :=
  filteredChats s ++ List.map userRow (Community.users s).

(** The rows of the four tabs. *)
Definition allTab (s : Community.State) : list Chat :=
  filter (matches (Community.searchTerm s)) (combinedAll s).

Definition favoritesTab (s : Community.State) : list Chat :=
  filter isFavorite (filteredChats s).

Definition groupsTab (s : Community.State) : list Chat :=
  filter isGroup (filteredChats s).

Definition usersTab (s : Community.State) : list User :=
  filter (fun u => includes (toLowerCase (user_name u))
                            (toLowerCase (Community.searchTerm s)))
         (Community.users s).

End Lists.

End CommunityLists.
(** * Properties *)

(** ** Strings and identifiers *)

Lemma str_eqb_eq (a b : jsstring) : str_eqb a b = true <-> a = b.
Proof.
  revert b; induction a as [|x a IH]; destruct b as [|y b]; simpl;
    try (split; [discriminate | discriminate]); try tauto.
  rewrite andb_true_iff, N.eqb_eq, IH.
  split; [intros [-> ->]; reflexivity | intros H; inversion H; auto].
Qed.

Lemma str_eqb_refl (a : jsstring) : str_eqb a a = true.
Proof. apply str_eqb_eq; reflexivity. Qed.

Lemma str_eqb_neq (a b : jsstring) : str_eqb a b = false <-> a <> b.
Proof.
  split.
  - intros H E. apply str_eqb_eq in E. congruence.
  - intros H. destruct (str_eqb a b) eqn:E; [|reflexivity].
    apply str_eqb_eq in E. contradiction.
Qed.

Lemma str_eqb_sym (a b : jsstring) : str_eqb a b = str_eqb b a.
Proof.
  destruct (str_eqb a b) eqn:E.
  - apply str_eqb_eq in E; subst. symmetry; apply str_eqb_refl.
  - symmetry. apply str_eqb_neq. apply str_eqb_neq in E. congruence.
Qed.

Lemma lit_inj (s t : string) : lit s = lit t -> s = t.
Proof.
  unfold lit. intros H.
  rewrite <- (string_of_list_ascii_of_string s),
          <- (string_of_list_ascii_of_string t).
  f_equal.
  revert H. generalize (list_ascii_of_string s) (list_ascii_of_string t).
  intros l; induction l as [|a l IH]; intros [|b l0]; simpl;
    try discriminate; auto.
  intros H; inversion H as [[Hab Hl]].
  f_equal; [|auto].
  rewrite <- (ascii_N_embedding a), <- (ascii_N_embedding b); congruence.
Qed.

Lemma toString_inj (n m : Z) : toString n = toString m -> n = m.
Proof.
  unfold toString. intros H. apply lit_inj in H.
  apply DecimalZ.to_int_inj.
  assert (Some (Z.to_int n) = Some (Z.to_int m)) as E
      by (rewrite <- !NilEmpty.isi; congruence).
  congruence.
Qed.

Lemma toString_truthy (n : Z) : truthy (toString n) = true.
Proof.
  unfold toString.
  assert (forall p, NilEmpty.string_of_uint (Pos.to_uint p) <> EmptyString) as Hp.
  { intros p H.
    assert (Pos.to_uint p = Decimal.Nil) as E
        by (destruct (Pos.to_uint p); simpl in H; congruence).
    pose proof (DecimalPos.Unsigned.of_to p) as Hof.
    rewrite E in Hof. discriminate Hof. }
  destruct n as [|p|p]; simpl; try reflexivity.
  specialize (Hp p). unfold lit.
  destruct (NilEmpty.string_of_uint (Pos.to_uint p)); [congruence|reflexivity].
Qed.

(** The string model on a few inputs. *)
Example trim_strips_both_ends : trim (lit "  a b  ") = lit "a b".
Proof. reflexivity. Qed.

Example trim_of_blank : trim [32; 9; 160; 10; 8203; 65279]%N = [8203]%N.
Proof. reflexivity. Qed.

Example toString_negative : toString (-12) = lit "-12".
Proof. reflexivity. Qed.

Example toString_zero : toString 0 = lit "0".
Proof. reflexivity. Qed.

(** ** Computation rules of the [Community] handlers *)

Lemma truthy_false (s : jsstring) : truthy s = false <-> s = [].
Proof. destruct s; simpl; split; congruence. Qed.

Lemma truthy_true (s : jsstring) : truthy s = true <-> s <> [].
Proof. destruct s; simpl; split; congruence. Qed.

Lemma with_chats_id (s : Community.State) :
  Community.with_chats (fun l => l) s = s.
Proof. destruct s; reflexivity. Qed.

Lemma map_ext_id {A} (f : A -> A) (l : list A) :
  (forall x, In x l -> f x = x) -> List.map f l = l.
Proof.
  induction l as [|x l IH]; simpl; intros H; [reflexivity|].
  rewrite H by auto. f_equal. apply IH. auto.
Qed.

Lemma handleSendMessage_run token now chatId content reply st :
  Community.handleSendMessage token now chatId content reply st =
  if truthy (trim content) then
    match reply with
    | Resolved res =>
        (Normal tt,
         Community.with_chats
           (List.map (fun c =>
              if str_eqb (id c) chatId
              then with_messages c
                     (messages c ++
                      [ {| msg_id := toString (sent_id res);
                           sender := lit "You"; content := content;
                           msg_timestamp := now; isOwn := true |} ])
              else c)) st,
         [Http token (POST_messages chatId content)])
    | Rejected e =>
        (Normal tt, st,
         [Http token (POST_messages chatId content);
          ConsoleError (lit "Error sending message:") e])
    end
  else (Normal tt, st, []).
Proof.
  unfold Community.handleSendMessage.
  destruct (truthy (trim content)); [|reflexivity].
  destruct reply; reflexivity.
Qed.

Lemma handleSend_run token chat hasParent now reply ct :
  ChatThread.handleSend token chat hasParent now reply ct =
  if truthy (trim (ChatThread.message ct)) then
    match reply with
    | Resolved sent =>
        (Normal tt,
         {| ChatThread.messages :=
              ChatThread.messages ct ++
              [ {| msg_id := toString (sent_id sent);
                   sender := lit "You"; content := sent_content sent;
                   msg_timestamp := now; isOwn := true |} ];
            ChatThread.message := [];
            ChatThread.loading := ChatThread.loading ct |},
         Http token (POST_messages (id chat) (ChatThread.message ct))
         :: (if hasParent
             then [Callback (onSendMessage (id chat) (ChatThread.message ct))]
             else []))
    | Rejected e =>
        (Normal tt, ct,
         [Http token (POST_messages (id chat) (ChatThread.message ct));
          ConsoleError (lit "Error sending message:") e])
    end
  else (Normal tt, ct, []).
Proof.
  unfold ChatThread.handleSend, with_render.
  destruct (truthy (trim (ChatThread.message ct))); [|reflexivity].
  destruct reply; [destruct hasParent|]; reflexivity.
Qed.

(** ** Sending a message *)

(** C1. Whatever the chat id, a content whose [trim()] is empty makes
    [handleSendMessage] (and [handleSend] of the thread, for its input
    text) return with no effect at all: no HTTP request, state unchanged.
    The requests a send issues are exactly one POST when the trimmed
    content is non-empty, and none otherwise. *)
Theorem blank_content_issues_no_request
    token now chatId content reply st chat hasParent reply' ct :
  let r := Community.handleSendMessage token now chatId content reply st in
  let r' := ChatThread.handleSend token chat hasParent now reply' ct in
  (trim content = [] -> r = (Normal tt, st, [])) /\
  requests_of r =
    (if truthy (trim content)
     then [Http token (POST_messages chatId content)] else []) /\
  (trim (ChatThread.message ct) = [] -> r' = (Normal tt, ct, [])) /\
  requests_of r' =
    (if truthy (trim (ChatThread.message ct))
     then [Http token (POST_messages (id chat) (ChatThread.message ct))]
     else []).
Proof.
  intros r r'. subst r r'.
  rewrite handleSendMessage_run, handleSend_run.
  repeat split.
  - intros H. apply truthy_false in H. rewrite H. reflexivity.
  - destruct (truthy (trim content)); [|reflexivity].
    destruct reply; reflexivity.
  - intros H. apply truthy_false in H. rewrite H. reflexivity.
  - destruct (truthy (trim (ChatThread.message ct))); [|reflexivity].
    destruct reply'; [destruct hasParent|]; reflexivity.
Qed.

(** C2. When the content is not blank and the POST succeeds,
    [handleSendMessage] leaves a chat list that is the old one entry by
    entry: every entry whose id is the chat id has its message list
    equal to the old list with exactly one message more at the end (the
    typed content, sent by "You", with [isOwn = true]) and all its other
    fields as they were, and every other entry is untouched; nothing else
    of the state changes.  The thread's own list ([handleSend]) likewise
    is the old list with exactly one own message more at the end. *)
Theorem successful_send_appends_own_message
    token now chatId text res st chat hasParent sent ct :
  trim text <> [] ->
  trim (ChatThread.message ct) <> [] ->
  let st' := state_of (Community.handleSendMessage token now chatId text
                         (Resolved res) st) in
  let ct' := state_of (ChatThread.handleSend token chat hasParent now
                         (Resolved sent) ct) in
  (exists m,
     isOwn m = true /\ content m = text /\
     sender m = lit "You" /\
     Forall2 (fun c c' =>
                (id c = chatId -> gained m c c') /\
                (id c <> chatId -> c' = c))
             (Community.chats st) (Community.chats st') /\
     st' = Community.with_chats (fun _ => Community.chats st') st) /\
  (exists m,
     isOwn m = true /\ content m = sent_content sent /\
     sender m = lit "You" /\
     ChatThread.messages ct' = ChatThread.messages ct ++ [m]).
Proof.
  intros Hc Hm st' ct'. subst st' ct'.
  rewrite handleSendMessage_run, handleSend_run.
  apply truthy_true in Hc, Hm. rewrite Hc, Hm.
  split.
  - eexists. split; [|split; [|split; [|split]]].
    4:{ unfold state_of; simpl.
        induction (Community.chats st) as [|c l IH]; simpl; constructor.
        - destruct (str_eqb (id c) chatId) eqn:E.
          + split.
            * intros _. unfold gained; simpl.
              repeat split; reflexivity.
            * apply str_eqb_eq in E. congruence.
          + apply str_eqb_neq in E. split; [congruence|reflexivity].
        - exact IH. }
    + reflexivity.
    + reflexivity.
    + reflexivity.
    + destruct st; reflexivity.
  - eexists. split; [|split; [|split]]. 4: reflexivity.
    all: reflexivity.
Qed.

Lemma successful_send_appends_own_message_witness :
  let st' := state_of (Community.handleSendMessage (Some (lit "jwt"))
                         (lit "10:16") (toString 7) (lit " hi ")
                         (Resolved {| sent_id := 42;
                                      sent_content := lit " hi " |})
                         sample_state) in
  let ct' := state_of (ChatThread.handleSend (Some (lit "jwt"))
                         (sample_chat 7) true (lit "10:16")
                         (Resolved {| sent_id := 41;
                                      sent_content := lit " hi " |})
                         sample_thread) in
  (exists m,
     isOwn m = true /\ content m = lit " hi " /\
     sender m = lit "You" /\
     Forall2 (fun c c' =>
                (id c = toString 7 -> gained m c c') /\
                (id c <> toString 7 -> c' = c))
             (Community.chats sample_state) (Community.chats st') /\
     st' = Community.with_chats (fun _ => Community.chats st') sample_state) /\
  (exists m,
     isOwn m = true /\ content m = lit " hi " /\
     sender m = lit "You" /\
     ChatThread.messages ct' = ChatThread.messages sample_thread ++ [m]).
Proof.
  apply (@successful_send_appends_own_message
           (Some (lit "jwt")) (lit "10:16") (toString 7) (lit " hi ")
           {| sent_id := 42; sent_content := lit " hi " |} sample_state
           (sample_chat 7) true
           {| sent_id := 41; sent_content := lit " hi " |} sample_thread);
    vm_compute; discriminate.
Defined.

(** ** Opening a direct chat *)

Lemma existsb_id_In (chatId : jsstring) (l : list Chat) :
  existsb (fun c => str_eqb (id c) chatId) l = true <-> In chatId (ids l).
Proof.
  unfold ids. rewrite existsb_exists, in_map_iff. split.
  - intros [c [Hin E]]. apply str_eqb_eq in E. eauto.
  - intros [c [E Hin]]. exists c. split; [exact Hin|].
    apply str_eqb_eq. exact E.
Qed.

Lemma handleOpenDm_of_run token r now user reply st :
  Community.handleOpenDm_of token r now user reply st =
  match reply with
  | Resolved conversation =>
      let chatId := toString (dm_id conversation) in
      (Normal tt,
       Community.with_selectedChatId (Some chatId)
         (if existsb (fun c => str_eqb (id c) chatId) (Community.chats r)
          then st
          else Community.with_chats
                 (cons {| id := chatId; name := user_name user;
                          isGroup := false; isFavorite := false;
                          unread := 0%N; timestamp := now;
                          members := [FromUser user]; messages := [];
                          type := Some USER |}) st),
       [Http token (POST_conversations_dm (user_id user))])
  | Rejected e =>
      (Normal tt, st,
       [Http token (POST_conversations_dm (user_id user));
        ConsoleError (lit "Error opening DM:") e;
        ToastError (lit "Failed to open DM")])
  end.
Proof.
  unfold Community.handleOpenDm_of.
  destruct reply as [conversation|e]; [|reflexivity].
  unfold try_catch, bind, await. simpl.
  destruct (existsb _ (Community.chats r)); reflexivity.
Qed.

(** A single click, with no other update of the list between the click
    and the reply ([handleOpenDm] is the handler of the render that shows
    the list the reply is applied to): the returned id becomes the
    selected chat; if that id already occurs in the list, the list is
    unchanged; if it does not, the new list is the old one with exactly
    one entry put in front, carrying that id and [isGroup = false]. *)
Theorem open_dm_adds_no_duplicate token now user conversation st :
  let chatId := toString (dm_id conversation) in
  let st' := state_of (Community.handleOpenDm token now user
                         (Resolved conversation) st) in
  Community.selectedChatId st' = Some chatId /\
  (In chatId (ids (Community.chats st)) ->
     Community.chats st' = Community.chats st) /\
  (~ In chatId (ids (Community.chats st)) ->
     exists c, Community.chats st' = c :: Community.chats st /\
               id c = chatId /\ isGroup c = false).
Proof.
  intros chatId st'. subst st'.
  unfold Community.handleOpenDm, with_render.
  rewrite handleOpenDm_of_run. fold chatId.
  unfold state_of; simpl.
  destruct (existsb (fun c => str_eqb (id c) chatId) (Community.chats st))
    eqn:E.
  - apply existsb_id_In in E.
    split; [reflexivity|]. split; [reflexivity|]. contradiction.
  - split; [reflexivity|]. split.
    + intros H. apply existsb_id_In in H. congruence.
    + intros _. eexists. split; [reflexivity|]. split; reflexivity.
Qed.

(** The handler of an older render tests the list of that render: when
    the entry arrived in between (a second click before the first reply),
    it is put in front once more. *)
Lemma open_dm_of_stale_render token r now user conversation st :
  ~ In (toString (dm_id conversation)) (ids (Community.chats r)) ->
  exists c,
    Community.chats
      (state_of (Community.handleOpenDm_of token r now user
                   (Resolved conversation) st))
    = c :: Community.chats st /\ id c = toString (dm_id conversation).
Proof.
  intros H. rewrite handleOpenDm_of_run. unfold state_of; simpl.
  destruct (existsb _ (Community.chats r)) eqn:E.
  - apply existsb_id_In in E. contradiction.
  - eexists. split; reflexivity.
Qed.

(** C3 does not hold of the handler as written.  The test
    [chats.some(...)] runs after the [await], on the [chats] of the
    render that created the handler, while [setChats((prev) => ...)]
    works on the list of the moment.  Two clicks on the same user before
    the first reply both carry the list without the conversation: the
    first reply puts entry 9 in front of the loaded list (7, 8); when the
    second reply arrives the returned id 9 already occurs in the loaded
    list, and yet one more entry with id 9 is put in front. *)
Lemma second_click_repeats_the_dm :
  let token := Some (lit "jwt") in
  let user := {| user_id := lit "5"; user_name := lit "Asha";
                 email := lit "asha@example.org"; avatarUrl := None |} in
  let reply := Resolved {| dm_id := 9 |} in
  let rendered := sample_state in
  let st1 := state_of (Community.handleOpenDm_of token rendered (lit "10:16")
                         user reply rendered) in
  let st2 := state_of (Community.handleOpenDm_of token rendered (lit "10:16")
                         user reply st1) in
  ids (Community.chats rendered) = [toString 7; toString 8] /\
  ids (Community.chats st1) = [toString 9; toString 7; toString 8] /\
  In (toString 9) (ids (Community.chats st1)) /\
  ids (Community.chats st2)
    = [toString 9; toString 9; toString 7; toString 8] /\
  Community.chats st2 <> Community.chats st1 /\
  ~ NoDup (ids (Community.chats st2)).
Proof.
  split; [reflexivity|]. split; [reflexivity|].
  split; [left; reflexivity|]. split; [reflexivity|].
  split; [discriminate|].
  intros H. inversion H as [|x l Hn _]. apply Hn. left. reflexivity.
Qed.

(** ** Favorites *)

Lemma handleToggleFavorite_run chatId st :
  Community.handleToggleFavorite chatId st =
  (Normal tt,
   match chatId with
   | Some (x :: cid) =>
       Community.with_chats
         (List.map (fun c =>
            if str_eqb (id c) (x :: cid)
            then with_isFavorite c (negb (isFavorite c))
            else c)) st
   | _ => st
   end,
   []).
Proof.
  destruct chatId as [[|x cid]|]; reflexivity.
Qed.

Lemma toggle_toggle (cid : jsstring) (l : list Chat) :
  List.map (fun c => if str_eqb (id c) cid
                     then with_isFavorite c (negb (isFavorite c)) else c)
    (List.map (fun c => if str_eqb (id c) cid
                        then with_isFavorite c (negb (isFavorite c)) else c)
       l) = l.
Proof.
  rewrite map_map. apply map_ext_id. intros c _.
  destruct (str_eqb (id c) cid) eqn:E; simpl; rewrite E; [|reflexivity].
  destruct c; unfold with_isFavorite; simpl. rewrite negb_involutive.
  reflexivity.
Qed.

Lemma fetchConversations_run token localeTime now reply st :
  Community.fetchConversations token localeTime now reply st =
  match reply with
  | Resolved res =>
      (Normal tt,
       Community.with_loading false
         (Community.with_chats
            (fun _ => List.map (Community.formatChat localeTime now)
                        (match res with Some l => l | None => [] end)) st),
       [Http token GET_conversations])
  | Rejected e =>
      (Normal tt, Community.with_loading false st,
       [Http token GET_conversations;
        ConsoleError (lit "Error fetching conversations:") e])
  end.
Proof. destruct reply; reflexivity. Qed.

Lemma fetchAllUsers_run token reply st :
  Community.fetchAllUsers token reply st =
  match reply with
  | Resolved res =>
      (Normal tt, Community.with_users res st, [Http token GET_auth_all])
  | Rejected e =>
      (Normal tt, st,
       [Http token GET_auth_all; ConsoleError (lit "Error fetching users:") e])
  end.
Proof. destruct reply; reflexivity. Qed.

Lemma mountEffect_run token localeTime now me convs dir st :
  Community.mountEffect token localeTime now me convs dir st =
  if truthy_opt token then
    match me with
    | Resolved _ =>
        let '(_, s1, t1) :=
          Community.fetchConversations token localeTime now convs st in
        let '(_, s2, t2) := Community.fetchAllUsers token dir s1 in
        (Normal tt, s2, Http token GET_auth_me :: t1 ++ t2)
    | Rejected _ =>
        (Normal tt, st, [Http token GET_auth_me; Navigate (lit "/login")])
    end
  else (Normal tt, st, [Navigate (lit "/login")]).
Proof.
  unfold Community.mountEffect.
  destruct (truthy_opt token); [|reflexivity].
  destruct me; [|reflexivity].
  destruct convs, dir; reflexivity.
Qed.

Lemma formatted_not_favorite localeTime now (data : list ServerConversation) :
  Forall (fun c => isFavorite c = false)
         (List.map (Community.formatChat localeTime now) data).
Proof.
  apply Forall_forall. intros c H. apply in_map_iff in H.
  destruct H as [conv [<- _]]. reflexivity.
Qed.

(** C4. Toggling the favorite flag of any chat id twice gives the state
    back, and a toggle issues no request (its trace is empty).  The flag
    is not read from the server either: after the conversations are
    (re)loaded, every loaded entry has [isFavorite = false], and so has
    every entry after the mount effect of a fresh page load, whatever
    the server answers. *)
Theorem double_toggle_and_reload token localeTime chatId st :
  let toggle := fun s => state_of (Community.handleToggleFavorite chatId s) in
  toggle (toggle st) = st /\
  trace_of (Community.handleToggleFavorite chatId st) = [] /\
  (forall now res s,
     Forall (fun c => isFavorite c = false)
       (Community.chats
          (state_of (Community.fetchConversations token localeTime now
                       (Resolved res) s)))) /\
  (forall now me convs dir,
     Forall (fun c => isFavorite c = false)
       (Community.chats
          (state_of (Community.mountEffect token localeTime now me convs dir
                       Community.initial)))).
Proof.
  intros toggle. subst toggle. cbv beta.
  rewrite !handleToggleFavorite_run. unfold state_of, trace_of; simpl.
  split; [|split; [reflexivity|split]].
  - destruct chatId as [[|x cid]|]; try reflexivity.
    destruct st; unfold Community.with_chats; simpl.
    rewrite toggle_toggle. reflexivity.
  - intros now res s. simpl. apply formatted_not_favorite.
  - intros now me convs dir. rewrite mountEffect_run.
    destruct (truthy_opt token); [|constructor].
    destruct me; [|constructor].
    destruct convs, dir; simpl;
      try apply formatted_not_favorite; constructor.
Qed.

(** C10. A toggle with an undefined (or empty) chat id, or with an id
    that no entry carries, leaves the state as it is.  In general the
    new list matches the old one entry by entry: an entry with another
    id is unchanged, an entry with the given id has its [isFavorite]
    negated and all its other fields ([id], [name], [isGroup], [unread],
    [timestamp], [members], [messages], [type]) unchanged; the rest of
    the state is untouched. *)
Theorem toggle_favorite_frame chatId st :
  let st' := state_of (Community.handleToggleFavorite chatId st) in
  (truthy_opt chatId = false -> st' = st) /\
  (forall cid, chatId = Some cid ->
     ~ In cid (ids (Community.chats st)) -> st' = st) /\
  Forall2 (fun c c' =>
             (Some (id c) <> chatId -> c' = c) /\
             same_but_favorite c c' /\
             (Some (id c) = chatId -> id c <> [] ->
                isFavorite c' = negb (isFavorite c)))
          (Community.chats st) (Community.chats st') /\
  st' = Community.with_chats (fun _ => Community.chats st') st.
Proof.
  intros st'. subst st'. rewrite handleToggleFavorite_run.
  unfold state_of; simpl.
  split;
    [destruct chatId as [[|x cid]|]; [reflexivity|discriminate|reflexivity]|].
  split.
  - intros cid -> Hn. destruct cid as [|x cid]; [reflexivity|].
    destruct st; unfold Community.with_chats; simpl in *. f_equal.
    apply map_ext_id. intros c Hin.
    destruct (str_eqb (id c) (x :: cid)) eqn:E; [|reflexivity].
    apply str_eqb_eq in E. exfalso. apply Hn. unfold ids.
    rewrite <- E. apply in_map. exact Hin.
  - destruct chatId as [[|x cid]|].
    + split; [|destruct st; reflexivity].
      induction (Community.chats st) as [|c l IH]; constructor; [|exact IH].
      split; [reflexivity|]. split; [repeat split|]. intros E Hn.
      congruence.
    + split; [|destruct st; reflexivity]. simpl.
      induction (Community.chats st) as [|c l IH]; simpl; constructor;
        [|exact IH].
      destruct (str_eqb (id c) (x :: cid)) eqn:E.
      * apply str_eqb_eq in E. split; [congruence|].
        split; [repeat split|]. reflexivity.
      * apply str_eqb_neq in E. split; [reflexivity|].
        split; [repeat split|]. congruence.
    + split; [|destruct st; reflexivity].
      induction (Community.chats st) as [|c l IH]; constructor; [|exact IH].
      split; [reflexivity|]. split; [repeat split|]. discriminate.
Qed.

(** ** Creating a group *)

Lemma handleCreate_run token now reply st :
  CreateGroupDialog.handleCreate token now reply st =
  if negb (truthy (trim (CreateGroupDialog.groupName st))) then
    (Normal tt, st, [ToastError (lit "Please enter a group name")])
  else
    match CreateGroupDialog.selectedMembers st with
    | [] =>
        (Normal tt, st, [ToastError (lit "Please select at least one member")])
    | _ :: _ =>
        let payload :=
          {| payload_name := trim (CreateGroupDialog.groupName st);
             payload_memberIds :=
               List.map Number (CreateGroupDialog.selectedMembers st) |} in
        match reply with
        | Resolved newGroup =>
            (Normal tt,
             {| CreateGroupDialog.groupName := [];
                CreateGroupDialog.selectedMembers := [];
                CreateGroupDialog.contacts := CreateGroupDialog.contacts st;
                CreateGroupDialog.loading := false |},
             [Http token (POST_conversations_group payload);
              Callback (onCreateGroup
                {| id := toString (group_id newGroup);
                   name := group_name newGroup; isGroup := true;
                   isFavorite := false; unread := 0%N; timestamp := now;
                   members := match group_members newGroup with
                              | Some ms => ms
                              | None => []
                              end;
                   messages := []; type := None |});
              ToastSuccess (lit "Group created successfully!");
              Callback onClose])
        | Rejected e =>
            (Normal tt,
             {| CreateGroupDialog.groupName := CreateGroupDialog.groupName st;
                CreateGroupDialog.selectedMembers :=
                  CreateGroupDialog.selectedMembers st;
                CreateGroupDialog.contacts := CreateGroupDialog.contacts st;
                CreateGroupDialog.loading := false |},
             [Http token (POST_conversations_group payload);
              ConsoleError (lit "Error creating group:") e;
              ToastError (lit "Failed to create group. Try again.")])
        end
    end.
Proof.
  unfold CreateGroupDialog.handleCreate, with_render.
  destruct st as [gn sm ct ld]; simpl.
  destruct (negb (truthy (trim gn))); [reflexivity|].
  destruct sm as [|x l]; [reflexivity|].
  destruct reply; reflexivity.
Qed.

(** C5. In every state of the dialog, if no member is selected or the
    trimmed group name is empty, [handleCreate] issues no HTTP request,
    shows exactly one error toast and leaves the dialog state as it was.
    The group POST goes out exactly when the trimmed name is non-empty
    and at least one member is selected. *)
Theorem create_group_rejected_client_side token now reply st :
  let r := CreateGroupDialog.handleCreate token now reply st in
  (CreateGroupDialog.selectedMembers st = [] \/
   trim (CreateGroupDialog.groupName st) = [] ->
     requests_of r = [] /\
     (exists text, trace_of r = [ToastError text]) /\
     state_of r = st) /\
  (requests_of r <> [] <->
     trim (CreateGroupDialog.groupName st) <> [] /\
     CreateGroupDialog.selectedMembers st <> []).
Proof.
  intros r. subst r. rewrite handleCreate_run.
  unfold requests_of, trace_of, state_of.
  destruct (truthy (trim (CreateGroupDialog.groupName st))) eqn:Hn; simpl.
  - apply truthy_true in Hn.
    destruct (CreateGroupDialog.selectedMembers st) as [|x l] eqn:Hs; simpl.
    + split.
      * intros _. split; [reflexivity|]. split; [eauto|reflexivity].
      * split; [intros H; exfalso; apply H; reflexivity|].
        intros [_ H]. congruence.
    + split.
      * intros [H|H]; [discriminate|contradiction].
      * split; [intros _; split; [assumption|discriminate]|].
        intros _. destruct reply; discriminate.
  - apply truthy_false in Hn. split.
    + intros _. split; [reflexivity|]. split; [eauto|reflexivity].
    + split; [intros H; exfalso; apply H; reflexivity|].
      intros [H _]. contradiction.
Qed.

(** ** The session gate *)

(** C7. On mount: without a stored credential the component only
    navigates to the login view and issues no request; with one, it
    verifies the session first, and when the verification is rejected it
    navigates to the login view and issues no further request.  The
    conversation list and the directory are requested only when a
    credential exists and the verification succeeded, and in that case
    both are requested and the component does not navigate away. *)
Theorem mount_session_gate token localeTime now me convs dir st :
  let r := Community.mountEffect token localeTime now me convs dir st in
  (truthy_opt token = false ->
     r = (Normal tt, st, [Navigate (lit "/login")])) /\
  (truthy_opt token = true -> forall e, me = Rejected e ->
     r = (Normal tt, st, [Http token GET_auth_me; Navigate (lit "/login")])) /\
  (In (Http token GET_conversations) (trace_of r) \/
   In (Http token GET_auth_all) (trace_of r) ->
     truthy_opt token = true /\ exists d, me = Resolved d) /\
  (truthy_opt token = true -> forall d, me = Resolved d ->
     In (Http token GET_conversations) (trace_of r) /\
     In (Http token GET_auth_all) (trace_of r) /\
     forall path, ~ In (Navigate path) (trace_of r)).
Proof.
  intros r. subst r. rewrite mountEffect_run.
  destruct (truthy_opt token) eqn:Ht.
  - split; [discriminate|]. split; [|split].
    + intros _ e ->. reflexivity.
    + destruct me as [d|e].
      * intros _. split; [reflexivity|eauto].
      * unfold trace_of; simpl.
        intros [[H|[H|[]]]|[H|[H|[]]]]; discriminate.
    + intros _ d ->.
      rewrite fetchConversations_run.
      destruct convs, dir; unfold trace_of; simpl;
        (split; [tauto|]; split; [tauto|]);
        intros path H; repeat (destruct H as [H|H]; [discriminate|]);
        exact H.
  - split; [reflexivity|]. split; [discriminate|]. split; [|discriminate].
    unfold trace_of; simpl. intros [[H|[]]|[H|[]]]; discriminate.
Qed.

(** ** Messages are loaded lazily *)

Lemma handleCreateGroup_run token now newGroup reply st :
  Community.handleCreateGroup token now newGroup reply st =
  match reply with
  | Resolved group =>
      (Normal tt,
       Community.with_showCreateGroup false
         (Community.with_chats
            (cons {| id := toString (group_id group);
                     name := group_name group; isGroup := true;
                     isFavorite := false; unread := 0%N; timestamp := now;
                     members := match group_members group with
                                | Some ms => ms
                                | None => []
                                end;
                     messages := []; type := Some GROUP |}) st),
       [Http token (POST_conversations_group newGroup)])
  | Rejected e =>
      (Normal tt, st,
       [Http token (POST_conversations_group newGroup);
        ConsoleError (lit "Error creating group:") e;
        ToastError (lit "Failed to create group")])
  end.
Proof. destruct reply; reflexivity. Qed.

Lemma fetchMessagesEffect_run token localeTime sel reply st :
  Community.fetchMessagesEffect token localeTime sel reply st =
  match sel with
  | Some (x :: s) =>
      let sid := x :: s in
      match reply with
      | Resolved res =>
          (Normal tt,
           Community.with_chats
             (List.map (fun chat =>
                if str_eqb (id chat) sid
                then with_messages chat
                       (List.map (Community.formatMessage localeTime) res)
                else chat)) st,
           [Http token (GET_messages sid)])
      | Rejected e =>
          (Normal tt, st,
           [Http token (GET_messages sid);
            ConsoleError (lit "Error fetching messages:") e])
      end
  | _ => (Normal tt, st, [])
  end.
Proof.
  destruct sel as [[|x s]|]; try reflexivity.
  destruct reply; reflexivity.
Qed.

Lemma opened_app_l token tr t cid :
  opened token tr cid -> opened token (tr ++ t) cid.
Proof. unfold opened. intros H. apply in_or_app. auto. Qed.

Lemma chats_lazy_app token st tr t :
  chats_lazy token st tr -> chats_lazy token st (tr ++ t).
Proof.
  intros [Ha Hb]. split; [exact Ha|].
  intros c Hin Hm. apply opened_app_l. auto.
Qed.

Lemma selection_opened_app token st tr t :
  selection_opened token st tr -> selection_opened token st (tr ++ t).
Proof. intros H sid Hs Ht. apply opened_app_l. auto. Qed.

Lemma same_selection_refl a : Community.same_selection a a = true.
Proof. destruct a; simpl; [apply str_eqb_refl|reflexivity]. Qed.

Lemma same_selection_eq a b : Community.same_selection a b = true -> a = b.
Proof.
  destruct a, b; simpl; try discriminate; [|reflexivity].
  intros H. apply str_eqb_eq in H. congruence.
Qed.

Lemma fetchMessagesEffect_lazy token localeTime sel reply st tr :
  chats_lazy token st tr ->
  exists st' t,
    Community.fetchMessagesEffect token localeTime sel reply st
      = (Normal tt, st', t) /\
    chats_lazy token st' (tr ++ t) /\
    Community.selectedChatId st' = Community.selectedChatId st /\
    (forall sid, sel = Some sid -> truthy sid = true ->
                 opened token (tr ++ t) sid).
Proof.
  intros [Ha Hb]. rewrite fetchMessagesEffect_run.
  destruct sel as [[|x s]|].
  - exists st, []. rewrite app_nil_r. repeat split; auto.
    intros sid [= <-]. discriminate.
  - assert (opened token (tr ++ [Http token (GET_messages (x :: s))]) (x :: s))
      as Hop by (apply in_or_app; right; left; reflexivity).
    destruct reply as [res|e].
    + eexists _, _. split; [reflexivity|]. split; [split|split].
      * simpl. intros c Hin. apply in_map_iff in Hin.
        destruct Hin as [c0 [<- Hin]].
        destruct (str_eqb (id c0) (x :: s)); simpl; auto.
      * simpl. intros c Hin Hm. apply in_map_iff in Hin.
        destruct Hin as [c0 [<- Hin]].
        destruct (str_eqb (id c0) (x :: s)) eqn:E.
        -- apply str_eqb_eq in E. simpl. rewrite E. exact Hop.
        -- apply opened_app_l. auto.
      * reflexivity.
      * intros sid [= <-] _. exact Hop.
    + eexists _, _. split; [reflexivity|]. split; [|split].
      * apply chats_lazy_app. split; assumption.
      * reflexivity.
      * intros sid [= <-] _. apply in_or_app. right. left. reflexivity.
  - exists st, []. rewrite app_nil_r. repeat split; auto. discriminate.
Qed.

Lemma rerender_lazy token localeTime before msgs st tr :
  chats_lazy token st tr ->
  (before = Community.selectedChatId st -> selection_opened token st tr) ->
  exists st' t,
    Community.rerender token localeTime before msgs st = (Normal tt, st', t) /\
    lazy_inv token st' (tr ++ t).
Proof.
  intros Hc Hs. unfold Community.rerender, with_render.
  destruct (Community.same_selection before (Community.selectedChatId st)) eqn:E.
  - apply same_selection_eq in E.
    exists st, []. rewrite app_nil_r. split; [reflexivity|].
    split; auto.
  - destruct (fetchMessagesEffect_lazy localeTime
                (Community.selectedChatId st) msgs Hc)
      as (st' & t & Hrun & Hc' & Hsel & Hop).
    exists st', t. split; [exact Hrun|]. split; [exact Hc'|].
    intros sid Hsid Ht. rewrite Hsel in Hsid. eauto.
Qed.

Lemma act_lazy token localeTime a st tr :
  lazy_inv token st tr ->
  exists st' t,
    Community.act token localeTime a st = (Normal tt, st', t) /\
    lazy_inv token st' (tr ++ t).
Proof.
  intros [Hc Hs]. pose proof Hc as [Ha Hb].
  unfold Community.act, with_render. destruct a as
    [chatId msgs | now user reply msgs | now content reply
     | now newGroup reply | chatId].
  - (* Select *)
    destruct (@rerender_lazy token localeTime (Community.selectedChatId st)
                msgs (Community.with_selectedChatId (Some chatId) st) tr)
      as (st' & t & Hrun & Hinv).
    + exact Hc.
    + simpl. intros E sid [= <-] Ht. apply Hs; assumption.
    + exists st', t. split; [|exact Hinv].
      unfold bind, Community.setSelectedChatId, modify. rewrite Hrun.
      reflexivity.
  - (* OpenDm *)
    unfold bind, Community.handleOpenDm, with_render.
    rewrite handleOpenDm_of_run. destruct reply as [conversation|e].
    + cbv zeta.
      set (chatId := toString (dm_id conversation)).
      set (t1 := [Http token (POST_conversations_dm (user_id user))]).
      set (s1 := Community.with_selectedChatId (Some chatId) _).
      assert (chats_lazy token s1 (tr ++ t1)) as Hc1.
      { subst s1.
        destruct (existsb _ (Community.chats st)); simpl.
        - apply chats_lazy_app. exact Hc.
        - split; simpl.
          + intros c [<-|Hin]; [apply toString_truthy|auto].
          + intros c [<-|Hin] Hm; [simpl in Hm; congruence|].
            apply opened_app_l. auto. }
      destruct (@rerender_lazy token localeTime (Community.selectedChatId st)
                  msgs s1 (tr ++ t1) Hc1) as (st' & t & Hrun & Hinv).
      * subst s1. simpl. intros E sid [= <-] Ht.
        apply opened_app_l. apply Hs; [congruence|assumption].
      * exists st', (t1 ++ t). rewrite Hrun. split; [reflexivity|].
        rewrite app_assoc. exact Hinv.
    + set (t1 := [_; _; _]).
      destruct (@rerender_lazy token localeTime (Community.selectedChatId st)
                  msgs st (tr ++ t1)) as (st' & t & Hrun & Hinv).
      * apply chats_lazy_app. exact Hc.
      * intros _. apply selection_opened_app. exact Hs.
      * exists st', (t1 ++ t). rewrite Hrun. split; [reflexivity|].
        rewrite app_assoc. exact Hinv.
  - (* Send *)
    unfold Community.selectedChat.
    destruct (Community.selectedChatId st) as [sid|] eqn:Hsid;
      [|exists st, []; rewrite app_nil_r; split; [reflexivity|split; auto]].
    destruct (find _ (Community.chats st)) as [c0|] eqn:Hf;
      [|exists st, []; rewrite app_nil_r; split; [reflexivity|split; auto]].
    apply find_some in Hf. destruct Hf as [Hin0 E0].
    apply str_eqb_eq in E0.
    assert (opened token tr (id c0)) as Hop0.
    { rewrite E0. apply Hs; [exact Hsid|]. rewrite <- E0. auto. }
    rewrite handleSendMessage_run.
    destruct (truthy (trim content));
      [|exists st, []; rewrite app_nil_r; split; [reflexivity|split; auto]].
    destruct reply as [res|e].
    + eexists _, _. split; [reflexivity|]. split; [split|].
      * simpl. intros c Hin. apply in_map_iff in Hin.
        destruct Hin as [c1 [<- Hin]].
        destruct (str_eqb (id c1) (id c0)); simpl; auto.
      * simpl. intros c Hin Hm. apply in_map_iff in Hin.
        destruct Hin as [c1 [<- Hin]]. apply opened_app_l.
        destruct (str_eqb (id c1) (id c0)) eqn:E.
        -- apply str_eqb_eq in E. simpl. rewrite E. exact Hop0.
        -- auto.
      * apply selection_opened_app. exact Hs.
    + eexists _, _. split; [reflexivity|]. split.
      * apply chats_lazy_app. exact Hc.
      * apply selection_opened_app. exact Hs.
  - (* CreateGroup *)
    rewrite handleCreateGroup_run. destruct reply as [group|e].
    + eexists _, _. split; [reflexivity|]. split; [split|].
      * simpl. intros c [<-|Hin]; [apply toString_truthy|auto].
      * simpl. intros c [<-|Hin] Hm; [simpl in Hm; congruence|].
        apply opened_app_l. auto.
      * apply selection_opened_app. exact Hs.
    + eexists _, _. split; [reflexivity|]. split.
      * apply chats_lazy_app. exact Hc.
      * apply selection_opened_app. exact Hs.
  - (* ToggleFavorite *)
    rewrite handleToggleFavorite_run.
    eexists _, _. split; [reflexivity|]. rewrite app_nil_r.
    destruct chatId as [[|x cid]|]; try (split; assumption).
    split; [split|exact Hs].
    + simpl. intros c Hin. apply in_map_iff in Hin.
      destruct Hin as [c1 [<- Hin]].
      destruct (str_eqb (id c1) (x :: cid)); simpl; auto.
    + simpl. intros c Hin Hm. apply in_map_iff in Hin.
      destruct Hin as [c1 [<- Hin]].
      destruct (str_eqb (id c1) (x :: cid)); simpl in *; auto.
Qed.

Lemma acts_lazy token localeTime l st tr :
  lazy_inv token st tr ->
  exists st' t,
    Community.acts token localeTime l st = (Normal tt, st', t) /\
    lazy_inv token st' (tr ++ t).
Proof.
  revert st tr. induction l as [|a l IH]; intros st tr Hinv; simpl.
  - exists st, []. rewrite app_nil_r. split; [reflexivity|exact Hinv].
  - destruct (act_lazy localeTime a Hinv) as (s1 & t1 & Hrun1 & Hinv1).
    destruct (IH _ _ Hinv1) as (s2 & t2 & Hrun2 & Hinv2).
    exists s2, (t1 ++ t2). unfold bind. rewrite Hrun1, Hrun2.
    split; [reflexivity|]. rewrite app_assoc. exact Hinv2.
Qed.

Lemma mount_lazy token localeTime now me convs dir :
  exists st t,
    Community.mountEffect token localeTime now me convs dir Community.initial
      = (Normal tt, st, t) /\
    lazy_inv token st ([] ++ t).
Proof.
  rewrite mountEffect_run.
  assert (forall t, lazy_inv token Community.initial t) as Hinit.
  { intros t. split; [split|]; simpl; try contradiction.
    intros sid H; discriminate. }
  assert (forall data t s,
            Community.chats s =
              List.map (Community.formatChat localeTime now) data ->
            Community.selectedChatId s = None ->
            lazy_inv token s t) as Hfmt.
  { intros data t s Hch Hsel. split; [split|].
    - rewrite Hch. intros c Hin. apply in_map_iff in Hin.
      destruct Hin as [conv [<- _]]. apply toString_truthy.
    - rewrite Hch. intros c Hin Hm. apply in_map_iff in Hin.
      destruct Hin as [conv [<- _]]. simpl in Hm. congruence.
    - intros sid H. congruence. }
  destruct (truthy_opt token); [|eexists _, _; split; [reflexivity|auto]].
  destruct me; [|eexists _, _; split; [reflexivity|auto]].
  destruct convs as [[l|]|e], dir as [us|e'];
    eexists _, _; (split; [reflexivity|]);
    try (apply (Hfmt l); reflexivity);
    try (apply (Hfmt []); reflexivity);
    apply Hinit || (split; [split|]; simpl; try contradiction;
                    intros sid H; discriminate).
Qed.

(** C8, as stated, fails when the fetch of an opened conversation is
    rejected and a message is then sent in it: conversation 7 is loaded,
    selected (GET /api/messages/7 is rejected), and a message is sent
    (the POST resolves).  Its message list is non-empty although no
    fetch of its messages ever resolved. *)
Lemma sent_message_fills_unfetched_chat :
  let l := [Community.Select (toString 7) (Rejected NetworkError);
            Community.Send (lit "10:17") (lit "hi")
              (Resolved {| sent_id := 41; sent_content := lit "hi" |})] in
  let r := Community.session (Some (lit "jwt")) (fun d => d) (lit "10:16")
             (Resolved {| me_id := 1 |})
             (Resolved (Some [ {| conv_id := 7; conv_name := None;
                                  conv_dmName := Some (lit "Asha");
                                  conv_type := lit "DM";
                                  conv_updatedAt := None;
                                  conv_members := None |} ]))
             (Resolved []) l in
  exists c, In c (Community.chats (state_of r)) /\ messages c <> [] /\
            existsb (fetched_by (id c)) l = false.
Proof.
  eexists. split; [left; reflexivity|]. split; [discriminate|reflexivity].
Qed.

(** C8, amended.  An entry enters the chat list with an empty message
    list, by each of the three ways in: the conversation-list fetch,
    group creation, and opening a direct chat.  And throughout a session
    (a page load followed by any user actions, whatever the server
    answers), an entry whose message list is non-empty belongs to a
    conversation that has been opened: the request for its messages,
    which only the effect on [selectedChatId] issues, is in the trace.
    The request need not have resolved. *)
Theorem messages_empty_until_opened token localeTime :
  (forall now res st,
     Forall (fun c => messages c = [])
       (Community.chats
          (state_of (Community.fetchConversations token localeTime now
                       (Resolved res) st)))) /\
  (forall now newGroup group st,
     exists c,
       Community.chats
         (state_of (Community.handleCreateGroup token now newGroup
                      (Resolved group) st))
       = c :: Community.chats st /\ messages c = []) /\
  (forall now user conversation st,
     let st' := state_of (Community.handleOpenDm token now user
                            (Resolved conversation) st) in
     Community.chats st' = Community.chats st \/
     exists c, Community.chats st' = c :: Community.chats st /\
               messages c = []) /\
  (forall now me convs dir l c,
     let r := Community.session token localeTime now me convs dir l in
     In c (Community.chats (state_of r)) -> messages c <> [] ->
     opened token (trace_of r) (id c)).
Proof.
  split; [|split; [|split]].
  - intros now res st. simpl. apply Forall_forall. intros c Hin.
    apply in_map_iff in Hin. destruct Hin as [conv [<- _]]. reflexivity.
  - intros now newGroup group st. rewrite handleCreateGroup_run.
    eexists. split; reflexivity.
  - intros now user conversation st st'. subst st'.
    unfold Community.handleOpenDm, with_render. rewrite handleOpenDm_of_run.
    unfold state_of; simpl.
    destruct (existsb _ (Community.chats st)); [left; reflexivity|].
    right. eexists. split; reflexivity.
  - intros now me convs dir l c r. subst r. unfold Community.session, bind.
    destruct (mount_lazy token localeTime now me convs dir)
      as (s1 & t1 & Hrun1 & Hinv1).
    destruct (acts_lazy localeTime l Hinv1) as (s2 & t2 & Hrun2 & Hinv2).
    rewrite Hrun1, Hrun2. unfold state_of, trace_of; simpl.
    destruct Hinv2 as [[_ Hb] _]. apply Hb.
Qed.

Lemma messages_empty_until_opened_witness :
  let r := Community.session (Some (lit "jwt")) (fun d => d) (lit "10:16")
             (Resolved {| me_id := 1 |})
             (Resolved (Some [ {| conv_id := 7; conv_name := None;
                                  conv_dmName := Some (lit "Asha");
                                  conv_type := lit "DM";
                                  conv_updatedAt := None;
                                  conv_members := None |} ]))
             (Resolved [])
             [Community.Select (toString 7)
                (Resolved [ {| smsg_id := 3; smsg_content := lit "hello";
                               smsg_createdAt := lit "2025-01-01T10:00:00Z";
                               smsg_sender := None |} ])] in
  exists c, In c (Community.chats (state_of r)) /\ messages c <> [] /\
            opened (Some (lit "jwt")) (trace_of r) (id c).
Proof.
  intros r. eexists. split; [left; reflexivity|]. split; [discriminate|].
  refine (proj2 (proj2 (proj2 (messages_empty_until_opened
            (Some (lit "jwt")) (fun d => d)))) _ _ _ _ _ _ _ _).
  - left; reflexivity.
  - discriminate.
Defined.

(** ** Identifiers stay unique *)

Lemma ids_map_same (f : Chat -> Chat) (l : list Chat) :
  (forall c, id (f c) = id c) -> ids (List.map f l) = ids l.
Proof.
  intros H. unfold ids. rewrite map_map. apply map_ext. exact H.
Qed.

Lemma NoDup_map_toString (l : list Z) :
  NoDup l -> NoDup (List.map toString l).
Proof.
  induction 1 as [|n l Hn Hl IH]; simpl; constructor; [|exact IH].
  intros Hin. apply in_map_iff in Hin. destruct Hin as [m [E Hm]].
  apply toString_inj in E. congruence.
Qed.

(** C9, as stated, fails for group creation: the handler puts the
    returned group in front without looking at the list.  Here the list
    holds the ids 7 and 8, the ids are unique, the response carries the
    single id 7, and the new list holds 7 twice. *)
Lemma group_creation_can_repeat_an_id :
  let st := sample_state in
  let st' := state_of (Community.handleCreateGroup (Some (lit "jwt"))
                         (lit "10:16")
                         {| payload_name := lit "Goa trip";
                            payload_memberIds := [Number (lit "2")] |}
                         (Resolved {| group_id := 7;
                                      group_name := lit "Goa trip";
                                      group_members := None |})
                         st) in
  NoDup (ids (Community.chats st)) /\
  ~ NoDup (ids (Community.chats st')).
Proof.
  split.
  - repeat constructor; simpl; intuition discriminate.
  - intros H. inversion H as [|x l Hn _]. apply Hn. left. reflexivity.
Qed.

(** C9, amended.  Starting from a list with unique ids, every operation
    on the list keeps the ids unique, provided that the conversation-list
    response has no duplicate ids and that the id returned by group
    creation is not already in the list ([handleOpenDm] being the handler
    of the render that shows the list).  The operations are the
    conversation-list fetch, group creation, opening a direct chat,
    toggling a favorite, sending a message and loading the messages of
    the selected chat. *)
Theorem unique_ids_preserved token localeTime st :
  NoDup (ids (Community.chats st)) ->
  (forall now reply,
     (forall data, reply = Resolved (Some data) ->
                   NoDup (List.map conv_id data)) ->
     NoDup (ids (Community.chats
       (state_of (Community.fetchConversations token localeTime now reply
                    st))))) /\
  (forall now newGroup reply,
     (forall group, reply = Resolved group ->
        ~ In (toString (group_id group)) (ids (Community.chats st))) ->
     NoDup (ids (Community.chats
       (state_of (Community.handleCreateGroup token now newGroup reply
                    st))))) /\
  (forall now user reply,
     NoDup (ids (Community.chats
       (state_of (Community.handleOpenDm token now user reply st))))) /\
  (forall chatId,
     NoDup (ids (Community.chats
       (state_of (Community.handleToggleFavorite chatId st))))) /\
  (forall now chatId content reply,
     NoDup (ids (Community.chats
       (state_of (Community.handleSendMessage token now chatId content reply
                    st))))) /\
  (forall sel reply,
     NoDup (ids (Community.chats
       (state_of (Community.fetchMessagesEffect token localeTime sel reply
                    st))))).
Proof.
  intros Hnd. repeat split.
  - intros now reply Hdata. rewrite fetchConversations_run.
    destruct reply as [[data|]|e]; unfold state_of; simpl.
    + unfold ids. rewrite map_map. simpl.
      rewrite <- (map_map conv_id toString).
      apply NoDup_map_toString. apply Hdata. reflexivity.
    + constructor.
    + exact Hnd.
  - intros now newGroup reply Hfresh. rewrite handleCreateGroup_run.
    destruct reply as [group|e]; unfold state_of; simpl; [|exact Hnd].
    constructor; [|exact Hnd]. apply Hfresh. reflexivity.
  - intros now user reply.
    unfold Community.handleOpenDm, with_render. rewrite handleOpenDm_of_run.
    destruct reply as [conversation|e]; unfold state_of; simpl; [|exact Hnd].
    destruct (existsb _ (Community.chats st)) eqn:E; simpl; [exact Hnd|].
    constructor; [|exact Hnd].
    intros Hin. apply existsb_id_In in Hin. congruence.
  - intros chatId. rewrite handleToggleFavorite_run. unfold state_of; simpl.
    destruct chatId as [[|x cid]|]; try exact Hnd. simpl.
    rewrite ids_map_same; [exact Hnd|].
    intros c. destruct (str_eqb (id c) (x :: cid)); reflexivity.
  - intros now chatId content reply. rewrite handleSendMessage_run.
    destruct (truthy (trim content)); [|exact Hnd].
    destruct reply as [res|e]; unfold state_of; simpl; [|exact Hnd].
    rewrite ids_map_same; [exact Hnd|].
    intros c. destruct (str_eqb (id c) chatId); reflexivity.
  - intros sel reply. rewrite fetchMessagesEffect_run.
    destruct sel as [[|x s]|]; try exact Hnd.
    destruct reply as [res|e]; unfold state_of; simpl; [|exact Hnd].
    rewrite ids_map_same; [exact Hnd|].
    intros c. destruct (str_eqb (id c) (x :: s)); reflexivity.
Qed.

Lemma unique_ids_preserved_witness :
  NoDup (ids (Community.chats
    (state_of (Community.handleCreateGroup (Some (lit "jwt")) (lit "10:16")
                 {| payload_name := lit "Goa trip";
                    payload_memberIds := [Number (lit "2")] |}
                 (Resolved {| group_id := 9; group_name := lit "Goa trip";
                              group_members := None |})
                 sample_state)))).
Proof.
  assert (NoDup (ids (Community.chats sample_state))) as Hnd
      by (repeat constructor; simpl; intuition discriminate).
  refine (proj1 (proj2 (@unique_ids_preserved (Some (lit "jwt")) (fun d => d)
                          sample_state Hnd)) _ _ _ _).
  intros group [= <-]. simpl. intuition discriminate.
Defined.

(** ** Failed calls *)

(** The handler returned at a guard: it called nothing. *)
Ltac no_call :=
  let H := fresh "H" in intros H; exfalso; apply H; reflexivity.

(** A run that computes: the state and the report are read off. *)
Ltac failure_case :=
  split;
  [ reflexivity
  | first [ split; reflexivity
          | no_call
          | intros _; split; reflexivity ] ].

(** C6, as stated, fails for sending a message: the POST is rejected,
    the error is written to the console, the state is unchanged, but no
    toast is shown. *)
Lemma failed_send_shows_no_notice :
  let r := Community.handleSendMessage (Some (lit "jwt")) (lit "10:16")
             (toString 7) (lit "hi") (Rejected (HttpStatus 500))
             sample_state in
  called r /\
  ~ (logged r = true /\ noticed r = true /\ state_of r = sample_state).
Proof.
  split.
  - discriminate.
  - intros [_ [H _]]. discriminate H.
Qed.

(** C6, amended.  When a call of the interface table is rejected, the
    error branch leaves the chat list, the message lists and the member
    lists unchanged (the only state written on the way is a [loading] or
    [adding] flag).  The failure is written to the console by every
    handler except the session check on mount, which instead navigates to
    the login view.  A toast is shown by group creation, opening a direct
    chat, the dialog's directory fetch and every handler of the group
    drawer; the conversation, directory and message fetches and the two
    send handlers show none. *)
Theorem failure_branches token localeTime e :
  (forall now st,
     let r := Community.fetchConversations token localeTime now (Rejected e)
                st in
     state_of r = Community.with_loading false st /\ logged_only r) /\
  (forall st,
     let r := Community.fetchAllUsers token (Rejected e) st in
     state_of r = st /\ logged_only r) /\
  (forall sel st,
     let r := Community.fetchMessagesEffect token localeTime sel (Rejected e)
                st in
     state_of r = st /\ (called r -> logged_only r)) /\
  (forall now chatId content st,
     let r := Community.handleSendMessage token now chatId content
                (Rejected e) st in
     state_of r = st /\ (called r -> logged_only r)) /\
  (forall now newGroup st,
     let r := Community.handleCreateGroup token now newGroup (Rejected e)
                st in
     state_of r = st /\ logged_and_noticed r) /\
  (forall now user st,
     let r := Community.handleOpenDm token now user (Rejected e) st in
     state_of r = st /\ logged_and_noticed r) /\
  (forall now convs dir st,
     let r := Community.mountEffect token localeTime now (Rejected e) convs
                dir st in
     state_of r = st /\ logged r = false /\ noticed r = false /\
     In (Navigate (lit "/login")) (trace_of r)) /\
  (forall chat ct,
     let r := ChatThread.fetchMessages token localeTime chat (Rejected e)
                ct in
     ChatThread.messages (state_of r) = ChatThread.messages ct /\
     (called r -> logged_only r)) /\
  (forall chat hasParent now ct,
     let r := ChatThread.handleSend token chat hasParent now (Rejected e)
                ct in
     state_of r = ct /\ (called r -> logged_only r)) /\
  (forall open st,
     let r := CreateGroupDialog.fetchUsers token open (Rejected e) st in
     state_of r = st /\ (called r -> logged_and_noticed r)) /\
  (forall now st,
     let r := CreateGroupDialog.handleCreate token now (Rejected e) st in
     CreateGroupDialog.groupName (state_of r) = CreateGroupDialog.groupName st /\
     CreateGroupDialog.selectedMembers (state_of r)
       = CreateGroupDialog.selectedMembers st /\
     CreateGroupDialog.contacts (state_of r) = CreateGroupDialog.contacts st /\
     (called r -> logged_and_noticed r)) /\
  (forall group open st,
     let r := GroupInfoDrawer.fetchMembers token group open (Rejected e) st in
     GroupInfoDrawer.members (state_of r) = GroupInfoDrawer.members st /\
     (called r -> logged_and_noticed r)) /\
  (forall group answer st,
     let r := GroupInfoDrawer.handleAddMembers token group answer
                (Rejected e) st in
     GroupInfoDrawer.members (state_of r) = GroupInfoDrawer.members st /\
     (called r -> logged_and_noticed r)) /\
  (forall group memberId memberName st,
     let r := GroupInfoDrawer.handleRemoveMember token group memberId
                memberName (Rejected e) st in
     state_of r = st /\ (called r -> logged_and_noticed r)) /\
  (forall group me reply st,
     me = Rejected e \/ reply = Rejected e ->
     let r := GroupInfoDrawer.handleLeaveGroup token group me reply st in
     state_of r = st /\ (called r -> logged_and_noticed r)) /\
  (forall group st,
     let r := GroupInfoDrawer.handleDeleteGroup token group (Rejected e) st in
     state_of r = st /\ (called r -> logged_and_noticed r)).
Proof.
  unfold logged_only, logged_and_noticed, called.
  repeat match goal with |- _ /\ _ => split end.
  - intros now st. failure_case.
  - intros st. failure_case.
  - intros sel st. rewrite fetchMessagesEffect_run.
    destruct sel as [[|x s]|]; failure_case.
  - intros now chatId content st. rewrite handleSendMessage_run.
    destruct (truthy (trim content)); failure_case.
  - intros now newGroup st. failure_case.
  - intros now user st. failure_case.
  - intros now convs dir st. rewrite mountEffect_run.
    destruct (truthy_opt token); repeat split; unfold trace_of; simpl; auto.
  - intros chat ct. unfold ChatThread.fetchMessages.
    destruct (negb (truthy (id chat)) || negb (truthy_opt token));
      failure_case.
  - intros chat hasParent now ct. rewrite handleSend_run.
    destruct (truthy (trim (ChatThread.message ct))); failure_case.
  - intros open st. unfold CreateGroupDialog.fetchUsers.
    destruct (negb open || negb (truthy_opt token)); failure_case.
  - intros now st. rewrite handleCreate_run.
    destruct (negb (truthy (trim (CreateGroupDialog.groupName st))));
      [do 3 (split; [reflexivity|]); no_call|].
    destruct (CreateGroupDialog.selectedMembers st) eqn:E;
      [unfold state_of; simpl; do 3 (split; [congruence|]); no_call|].
    unfold state_of; simpl.
    do 3 (split; [congruence|]). intros _. split; reflexivity.
  - intros group open st. unfold GroupInfoDrawer.fetchMembers.
    destruct group as [g|]; [destruct open|]; failure_case.
  - intros group answer st.
    unfold GroupInfoDrawer.handleAddMembers.
    destruct group as [g|]; [destruct answer as [[|c d]|]|]; failure_case.
  - intros group memberId memberName st.
    destruct group as [g|]; failure_case.
  - intros group me reply st Hrej.
    destruct group as [g|]; [|failure_case].
    destruct Hrej as [-> | ->]; [|destruct me]; failure_case.
  - intros group st. destruct group as [g|]; failure_case.
Qed.

(** * Further properties of the handlers *)

(** ** [trim] *)

Lemma trimStart_split (s : jsstring) :
  exists p, s = p ++ trimStart s /\ Forall (fun c => isWhiteSpace c = true) p.
Proof.
  induction s as [|c s [p [E Hp]]]; simpl.
  - exists []. split; [reflexivity|constructor].
  - destruct (isWhiteSpace c) eqn:Hc.
    + exists (c :: p). split; [simpl; congruence|constructor; assumption].
    + exists []. split; [reflexivity|constructor].
Qed.

Lemma trimStart_head (s : jsstring) c t :
  trimStart s = c :: t -> isWhiteSpace c = false.
Proof.
  induction s as [|d s IH]; simpl; [discriminate|].
  destruct (isWhiteSpace d) eqn:Hd; [exact IH|].
  intros [= <- _]. exact Hd.
Qed.

Lemma last_app_cons {A} (p l : list A) (x d : A) :
  last (p ++ x :: l) d = last (x :: l) d.
Proof.
  induction p as [|y p IH]; [reflexivity|].
  simpl app. rewrite <- IH. simpl.
  destruct (p ++ x :: l) eqn:E; [destruct p; discriminate|reflexivity].
Qed.

Lemma last_rev_cons {A} (l : list A) (x d : A) : last (rev (x :: l)) d = x.
Proof. simpl. rewrite last_last. reflexivity. Qed.

Lemma rev_head_last {A} (l : list A) (x : A) (t : list A) (d : A) :
  rev l = x :: t -> last l d = x.
Proof.
  intros H. rewrite <- (rev_involutive l), H. apply last_rev_cons.
Qed.

Lemma trim_no_outer_space (s : jsstring) : no_outer_space (trim s).
Proof.
  unfold no_outer_space, trim, trimEnd.
  destruct (rev (trimStart (rev (trimStart s)))) as [|c t] eqn:E; [exact I|].
  assert (rev (c :: t) = trimStart (rev (trimStart s))) as E'
      by (rewrite <- E, rev_involutive; reflexivity).
  split.
  - (* the first unit is the first unit of [trimStart s] *)
    destruct (trimStart_split (rev (trimStart s))) as [p [Hs _]].
    rewrite <- E' in Hs.
    assert (trimStart s = c :: t ++ rev p) as Hts.
    { rewrite <- (rev_involutive (trimStart s)), Hs, rev_app_distr,
        rev_involutive. reflexivity. }
    apply (trimStart_head _ Hts).
  - (* the last unit is the first unit of the inner [trimStart] *)
    destruct (rev (c :: t)) as [|x r] eqn:Er.
    + apply (f_equal (@rev N)) in Er. rewrite rev_involutive in Er.
      discriminate.
    + assert (last (c :: t) c = x) as Hl by (apply (rev_head_last _ c Er)).
      assert (last t c = last (c :: t) c) as Ht
          by (destruct t; reflexivity).
      rewrite Ht, Hl. symmetry in E'. apply (trimStart_head _ E').
Qed.

(** ** The group dialog *)

(** X1. When [handleCreate] does call the API, it sends exactly one
    group POST whose name is the trimmed input (non-empty, without white
    space at either end) and whose member ids are the selected members,
    one number each, in selection order, at least one. *)
Theorem handleCreate_request_is_clean token now reply st :
  let r := CreateGroupDialog.handleCreate token now reply st in
  called r ->
  exists payload,
    requests_of r = [Http token (POST_conversations_group payload)] /\
    payload_name payload = trim (CreateGroupDialog.groupName st) /\
    payload_name payload <> [] /\
    no_outer_space (payload_name payload) /\
    payload_memberIds payload
      = List.map Number (CreateGroupDialog.selectedMembers st) /\
    payload_memberIds payload <> [].
Proof.
  intros r. subst r. unfold called. rewrite handleCreate_run.
  destruct (truthy (trim (CreateGroupDialog.groupName st))) eqn:Hn; simpl;
    [|intros H; exfalso; apply H; reflexivity].
  apply truthy_true in Hn.
  destruct (CreateGroupDialog.selectedMembers st) as [|x l] eqn:Hs;
    [intros H; exfalso; apply H; reflexivity|].
  intros _. eexists. split; [destruct reply; reflexivity|].
  simpl. split; [reflexivity|]. split; [exact Hn|].
  split; [apply trim_no_outer_space|]. split; [reflexivity|discriminate].
Qed.

Lemma handleCreate_request_is_clean_witness :
  exists payload,
    requests_of (CreateGroupDialog.handleCreate (Some (lit "jwt"))
                   (lit "10:16") (Rejected NetworkError)
                   {| CreateGroupDialog.groupName := lit "  Goa trip ";
                      CreateGroupDialog.selectedMembers := [lit "2"; lit "5"];
                      CreateGroupDialog.contacts := [];
                      CreateGroupDialog.loading := false |})
    = [Http (Some (lit "jwt")) (POST_conversations_group payload)] /\
    payload_name payload = lit "Goa trip".
Proof.
  destruct (@handleCreate_request_is_clean (Some (lit "jwt")) (lit "10:16")
              (Rejected NetworkError)
              {| CreateGroupDialog.groupName := lit "  Goa trip ";
                 CreateGroupDialog.selectedMembers := [lit "2"; lit "5"];
                 CreateGroupDialog.contacts := [];
                 CreateGroupDialog.loading := false |})
    as [payload [Hreq [Hname _]]].
  - unfold called. vm_compute. discriminate.
  - exists payload. split; [exact Hreq|exact Hname].
Defined.

(** X2. [handleCreate] hands the new group to the parent and closes the
    dialog exactly when it called the API and the POST resolved; the form
    is then cleared (name and selection empty, contacts kept), and the
    group handed over has no messages and the id the server returned. *)
Theorem handleCreate_notifies_on_success token now reply st :
  let r := CreateGroupDialog.handleCreate token now reply st in
  ((exists c, In (Callback (onCreateGroup c)) (trace_of r)) <->
     called r /\ exists g, reply = Resolved g) /\
  (In (Callback onClose) (trace_of r) <->
     called r /\ exists g, reply = Resolved g) /\
  (forall g c, reply = Resolved g ->
     In (Callback (onCreateGroup c)) (trace_of r) ->
     id c = toString (group_id g) /\ messages c = [] /\ isGroup c = true /\
     CreateGroupDialog.groupName (state_of r) = [] /\
     CreateGroupDialog.selectedMembers (state_of r) = [] /\
     CreateGroupDialog.contacts (state_of r) = CreateGroupDialog.contacts st).
Proof.
  intros r. subst r. unfold called. rewrite handleCreate_run.
  destruct st as [gn sm ct ld].
  unfold requests_of, trace_of, state_of. simpl.
  assert (forall text : jsstring,
    ((exists c, In (Callback (onCreateGroup c)) [ToastError text]) <->
       @nil Event <> [] /\ exists g, reply = Resolved g) /\
    (In (Callback onClose) [ToastError text] <->
       @nil Event <> [] /\ exists g, reply = Resolved g) /\
    (forall g c, reply = Resolved g ->
       In (Callback (onCreateGroup c)) [ToastError text] ->
       id c = toString (group_id g) /\ messages c = [] /\ isGroup c = true /\
       gn = [] /\ sm = [] /\ ct = ct))
    as Hguard.
  { intros text. split; [|split].
    - split; [intros [c [Hin|[]]]; discriminate|].
      intros [Hc _]. exfalso; apply Hc; reflexivity.
    - split; [intros [Hin|[]]; discriminate|].
      intros [Hc _]. exfalso; apply Hc; reflexivity.
    - intros g c _ [Hin|[]]; discriminate. }
  destruct (negb (truthy (trim gn))); [apply Hguard|].
  destruct sm as [|x l]; [apply Hguard|].
  clear Hguard.
  destruct reply as [g|e]; simpl.
  - split; [|split].
    + split; [intros _; split; [discriminate|eauto]|].
      intros _. eexists. right. left. reflexivity.
    + split; [intros _; split; [discriminate|eauto]|]. tauto.
    + intros g0 c [= <-] [H|[H|[H|[H|[]]]]]; try discriminate.
      inversion H; subst. repeat split; reflexivity.
  - split; [|split].
    + split.
      * intros [c [H|[H|[H|[]]]]]; discriminate.
      * intros [_ [g H]]. discriminate.
    + split.
      * intros [H|[H|[H|[]]]]; discriminate.
      * intros [_ [g H]]. discriminate.
    + intros g c H. discriminate.
Qed.

Lemma existsb_str_In (i : jsstring) (l : list jsstring) :
  existsb (str_eqb i) l = true <-> In i l.
Proof.
  rewrite existsb_exists. split.
  - intros [x [Hin E]]. apply str_eqb_eq in E. congruence.
  - intros H. exists i. split; [exact H|apply str_eqb_refl].
Qed.

Lemma toggleMember_run user st :
  CreateGroupDialog.toggleMember user st =
  (Normal tt,
   {| CreateGroupDialog.groupName := CreateGroupDialog.groupName st;
      CreateGroupDialog.selectedMembers :=
        if existsb (str_eqb (user_id user))
                   (CreateGroupDialog.selectedMembers st)
        then filter (fun i => negb (str_eqb i (user_id user)))
                    (CreateGroupDialog.selectedMembers st)
        else CreateGroupDialog.selectedMembers st ++ [user_id user];
      CreateGroupDialog.contacts := CreateGroupDialog.contacts st;
      CreateGroupDialog.loading := CreateGroupDialog.loading st |},
   []).
Proof.
  unfold CreateGroupDialog.toggleMember, with_render.
  destruct (existsb _ (CreateGroupDialog.selectedMembers st)); reflexivity.
Qed.

(** X3. A click on a row of the member list flips the membership of
    that user in the selection and of nobody else, calls nothing, and
    keeps a duplicate-free selection duplicate-free; a second click on a
    user that was not selected gives the selection back. *)
Theorem toggleMember_flips_one user st :
  let sel := CreateGroupDialog.selectedMembers st in
  let r := CreateGroupDialog.toggleMember user st in
  let sel' := CreateGroupDialog.selectedMembers (state_of r) in
  trace_of r = [] /\
  (In (user_id user) sel' <-> ~ In (user_id user) sel) /\
  (forall i, i <> user_id user -> (In i sel' <-> In i sel)) /\
  (NoDup sel -> NoDup sel') /\
  (~ In (user_id user) sel ->
     state_of (CreateGroupDialog.toggleMember user (state_of r)) = st).
Proof.
  intros sel r sel'. subst sel r sel'. rewrite !toggleMember_run.
  unfold state_of, trace_of; simpl.
  set (u := user_id user). set (sel := CreateGroupDialog.selectedMembers st).
  split; [reflexivity|].
  destruct (existsb (str_eqb u) sel) eqn:E.
  - apply existsb_str_In in E. split; [|split; [|split]].
    + rewrite filter_In. split.
      * intros [_ H]. rewrite str_eqb_refl in H. discriminate.
      * tauto.
    + intros i Hi. rewrite filter_In. split; [tauto|].
      intros H. split; [exact H|].
      apply negb_true_iff. apply str_eqb_neq. exact Hi.
    + apply NoDup_filter.
    + tauto.
  - assert (~ In u sel) as Hn
        by (intros H; apply existsb_str_In in H; congruence).
    split; [|split; [|split]].
    + split; [tauto|]. intros _. apply in_or_app. right. left. reflexivity.
    + intros i Hi. rewrite in_app_iff. simpl. split; [|tauto].
      intros [H|[H|[]]]; [exact H|congruence].
    + intros Hnd. apply NoDup_app; [exact Hnd|repeat constructor; tauto|].
      intros x Hx [H|[]]. subst x. contradiction.
    + intros _.
      assert (existsb (str_eqb u) (sel ++ [u]) = true) as E'
          by (apply existsb_str_In, in_or_app; right; left; reflexivity).
      rewrite E'. rewrite filter_app. simpl. rewrite str_eqb_refl. simpl.
      rewrite app_nil_r.
      assert (filter (fun i => negb (str_eqb i u)) sel = sel) as F.
      { clear E E'. induction sel as [|x l IH]; [reflexivity|]. simpl.
        destruct (str_eqb x u) eqn:Ex.
        - apply str_eqb_eq in Ex. exfalso. apply Hn. left. exact Ex.
        - simpl. f_equal. apply IH. intros H. apply Hn. right. exact H. }
      rewrite F. subst sel. destruct st; reflexivity.
Qed.

(** ** The group drawer *)

Lemma strict_eq_opt_eq (a b : option jsstring) :
  strict_eq_opt a b = true <-> a = b.
Proof.
  destruct a as [x|], b as [y|]; simpl; try (split; congruence).
  rewrite str_eqb_eq. split; congruence.
Qed.

Lemma handleRemoveMember_run token g memberId memberName reply st :
  GroupInfoDrawer.handleRemoveMember token (Some g) memberId memberName
    reply st =
  match reply with
  | Resolved _ =>
      (Normal tt,
       {| GroupInfoDrawer.members :=
            filter (fun m =>
                      negb (strict_eq_opt (GroupInfoDrawer.member_id m)
                                          memberId))
                   (GroupInfoDrawer.members st);
          GroupInfoDrawer.loading := GroupInfoDrawer.loading st;
          GroupInfoDrawer.adding := GroupInfoDrawer.adding st |},
       [Http token (DELETE_member (id g) (template memberId));
        ToastSuccess (memberName ++ lit " removed from group")])
  | Rejected e =>
      (Normal tt, st,
       [Http token (DELETE_member (id g) (template memberId));
        ConsoleError (lit "Error removing member:") e;
        ToastError (lit "Failed to remove member")])
  end.
Proof. destruct reply; reflexivity. Qed.

(** X4. After a member removal that the server accepted, the drawer's
    list holds exactly the old members whose id differs from the one
    passed, in the old order: nobody with that id is left, everybody
    else is still there, and the list has not grown.  The id may be
    undefined (a row without id): the request then names the member
    "undefined" and every member without an id is dropped.  So a click
    on the remove button of a listed member always takes that member off
    the list.  No prop of the parent is called. *)
Theorem handleRemoveMember_removes_exactly token g memberId memberName st :
  let r := GroupInfoDrawer.handleRemoveMember token (Some g) memberId
             memberName (Resolved tt) st in
  let ms := GroupInfoDrawer.members st in
  let ms' := GroupInfoDrawer.members (state_of r) in
  (forall m, In m ms' <->
     In m ms /\ GroupInfoDrawer.member_id m <> memberId) /\
  (exists keep, ms' = filter keep ms) /\
  List.length ms' <= List.length ms /\
  requests_of r =
    [Http token (DELETE_member (id g)
                   (match memberId with
                    | Some i => i
                    | None => lit "undefined"
                    end))] /\
  (forall c, ~ In (Callback c) (trace_of r)) /\
  (forall member,
     let r' := GroupInfoDrawer.removeClick token (Some g) member
                 (Resolved tt) st in
     ~ In member (GroupInfoDrawer.members (state_of r')) /\
     (forall m, In m (GroupInfoDrawer.members (state_of r')) ->
        In m ms /\
        GroupInfoDrawer.member_id m <> GroupInfoDrawer.member_id member)).
Proof.
  intros r ms ms'. subst r ms ms'.
  unfold GroupInfoDrawer.removeClick.
  rewrite !handleRemoveMember_run.
  unfold state_of, trace_of, requests_of; simpl.
  assert (forall mid m,
            In m (filter (fun m0 =>
                            negb (strict_eq_opt
                                    (GroupInfoDrawer.member_id m0) mid))
                         (GroupInfoDrawer.members st)) <->
            In m (GroupInfoDrawer.members st) /\
            GroupInfoDrawer.member_id m <> mid) as Hfilter.
  { intros mid m. rewrite filter_In, negb_true_iff.
    split; intros [Hin H]; (split; [exact Hin|]).
    - intros E. apply strict_eq_opt_eq in E. congruence.
    - destruct (strict_eq_opt (GroupInfoDrawer.member_id m) mid) eqn:E;
        [|reflexivity].
      apply strict_eq_opt_eq in E. contradiction. }
  split; [apply Hfilter|]. split; [eexists; reflexivity|].
  split; [apply filter_length_le|]. split; [destruct memberId; reflexivity|].
  split; [intros c [H|[H|[]]]; discriminate|].
  intros member. split.
  - intros Hin. apply Hfilter in Hin. destruct Hin as [_ H]. apply H.
    reflexivity.
  - intros m Hin. apply Hfilter in Hin. exact Hin.
Qed.

Lemma handleAddMembers_run token g answer reply st :
  GroupInfoDrawer.handleAddMembers token (Some g) answer reply st =
  match answer with
  | Some (c :: d) =>
      let newMemberId := c :: d in
      match reply with
      | Resolved _ =>
          (Normal tt,
           {| GroupInfoDrawer.members :=
                GroupInfoDrawer.members st ++
                [ {| GroupInfoDrawer.member_id := Some newMemberId;
                     GroupInfoDrawer.member_name := lit "User " ++ newMemberId;
                     GroupInfoDrawer.member_email := None |} ];
              GroupInfoDrawer.loading := GroupInfoDrawer.loading st;
              GroupInfoDrawer.adding := false |},
           [Http token (POST_members (id g) [Number newMemberId]);
            ToastSuccess (lit "Member added successfully!")])
      | Rejected e =>
          (Normal tt,
           {| GroupInfoDrawer.members := GroupInfoDrawer.members st;
              GroupInfoDrawer.loading := GroupInfoDrawer.loading st;
              GroupInfoDrawer.adding := false |},
           [Http token (POST_members (id g) [Number newMemberId]);
            ConsoleError (lit "Error adding member:") e;
            ToastError (lit "Failed to add member")])
      end
  | _ =>
      (Normal tt,
       {| GroupInfoDrawer.members := GroupInfoDrawer.members st;
          GroupInfoDrawer.loading := GroupInfoDrawer.loading st;
          GroupInfoDrawer.adding := false |},
       [])
  end.
Proof.
  destruct answer as [[|c d]|]; try reflexivity.
  destruct reply; reflexivity.
Qed.

(** X5. Adding a member: a cancelled or empty prompt calls nothing and
    leaves the member list alone; an answer makes one POST for that one
    id, and when it resolves the list grows by exactly one entry at the
    end, carrying the typed id, without any test whether the id is
    already listed; in every case the [adding] flag ends up cleared. *)
Theorem handleAddMembers_appends_typed_id token g answer reply st :
  let r := GroupInfoDrawer.handleAddMembers token (Some g) answer reply st in
  let ms := GroupInfoDrawer.members st in
  let ms' := GroupInfoDrawer.members (state_of r) in
  GroupInfoDrawer.adding (state_of r) = false /\
  (truthy_opt answer = false -> trace_of r = [] /\ ms' = ms) /\
  (forall i, answer = Some i -> truthy i = true ->
     requests_of r = [Http token (POST_members (id g) [Number i])] /\
     (forall u, reply = Resolved u ->
        exists m, ms' = ms ++ [m] /\ has_member_id i m /\
                  GroupInfoDrawer.member_name m = lit "User " ++ i) /\
     (forall e, reply = Rejected e -> ms' = ms)).
Proof.
  intros r ms ms'. subst r ms ms'. rewrite handleAddMembers_run.
  unfold requests_of, trace_of, state_of, has_member_id.
  destruct answer as [[|c d]|]; simpl.
  - split; [reflexivity|]. split; [auto|]. intros i [= <-]. discriminate.
  - destruct reply as [u|e]; simpl.
    + split; [reflexivity|]. split; [discriminate|].
      intros i [= <-] _. split; [reflexivity|]. split.
      * intros _ _. eexists. split; [reflexivity|]. split; reflexivity.
      * intros e H. discriminate.
    + split; [reflexivity|]. split; [discriminate|].
      intros i [= <-] _. split; [reflexivity|]. split.
      * intros u H. discriminate.
      * intros _ _. reflexivity.
  - split; [reflexivity|]. split; [auto|]. intros i H. discriminate.
Qed.

Lemma handleAddMembers_appends_typed_id_witness :
  exists m,
    GroupInfoDrawer.members
      (state_of (GroupInfoDrawer.handleAddMembers (Some (lit "jwt"))
                   (Some (sample_chat 7)) (Some (lit "12")) (Resolved tt)
                   GroupInfoDrawer.initial))
    = GroupInfoDrawer.members GroupInfoDrawer.initial ++ [m] /\
    has_member_id (lit "12") m.
Proof.
  destruct (proj1 (proj2 (proj2 (proj2
              (@handleAddMembers_appends_typed_id (Some (lit "jwt"))
                 (sample_chat 7) (Some (lit "12")) (Resolved tt)
                 GroupInfoDrawer.initial)) (lit "12") eq_refl eq_refl))
              tt eq_refl) as [m [Hms [Hid _]]].
  exists m. split; [exact Hms|exact Hid].
Defined.

(** X6. Leaving a group: the DELETE goes out only after the session
    request resolved, and it names the caller's own id as the member to
    remove; [onClose] is called exactly when both requests resolved; the
    drawer's state never changes, and a toast reports every outcome. *)
Theorem handleLeaveGroup_sequence token g me reply st :
  let r := GroupInfoDrawer.handleLeaveGroup token (Some g) me reply st in
  state_of r = st /\
  requests_of r =
    match me with
    | Resolved who =>
        [Http token GET_auth_me;
         Http token (DELETE_member (id g) (toString (me_id who)))]
    | Rejected _ => [Http token GET_auth_me]
    end /\
  (In (Callback onClose) (trace_of r) <->
     (exists who, me = Resolved who) /\ (exists u, reply = Resolved u)) /\
  (noticed r = true).
Proof.
  intros r. subst r.
  destruct me as [who|e]; [destruct reply as [u|e]|];
    unfold requests_of, trace_of, state_of; simpl.
  - split; [reflexivity|]. split; [reflexivity|]. split; [|reflexivity].
    split; [intros _; split; eauto|]. intros _. do 3 right. left. reflexivity.
  - split; [reflexivity|]. split; [reflexivity|]. split; [|reflexivity].
    split.
    + intros [H|[H|[H|[H|[]]]]]; discriminate.
    + intros [_ [u H]]. discriminate.
  - split; [reflexivity|]. split; [reflexivity|]. split; [|reflexivity].
    split.
    + intros [H|[H|[H|[]]]]; discriminate.
    + intros [[who H] _]. discriminate.
Qed.

(** ** Busy flags *)

(** X7. No handler leaves its busy flag raised: whatever the server
    answers, [loading] is false after the conversation fetch, after the
    thread's and the drawer's fetch when their guard lets them run, and
    after a group creation that called the API, and [adding] is false
    after an attempt to add a member.  When the guard of a fetch stops
    it, the state is not touched at all. *)
Theorem busy_flags_are_cleared token localeTime :
  (forall now reply st,
     Community.loading
       (state_of (Community.fetchConversations token localeTime now reply st))
     = false) /\
  (forall chat reply ct,
     let r := ChatThread.fetchMessages token localeTime chat reply ct in
     if truthy (id chat) && truthy_opt token
     then ChatThread.loading (state_of r) = false
     else r = (Normal tt, ct, [])) /\
  (forall group open reply st,
     let r := GroupInfoDrawer.fetchMembers token group open reply st in
     match group with
     | Some _ => if open then GroupInfoDrawer.loading (state_of r) = false
                 else r = (Normal tt, st, [])
     | None => r = (Normal tt, st, [])
     end) /\
  (forall now reply st,
     let r := CreateGroupDialog.handleCreate token now reply st in
     called r -> CreateGroupDialog.loading (state_of r) = false) /\
  (forall g answer reply st,
     GroupInfoDrawer.adding
       (state_of (GroupInfoDrawer.handleAddMembers token (Some g) answer
                    reply st)) = false).
Proof.
  split; [|split; [|split; [|split]]].
  - intros now reply st. rewrite fetchConversations_run.
    destruct reply; reflexivity.
  - intros chat reply ct r. subst r. unfold ChatThread.fetchMessages.
    destruct (truthy (id chat)), (truthy_opt token); simpl;
      try reflexivity.
    destruct reply; reflexivity.
  - intros group open reply st r. subst r.
    unfold GroupInfoDrawer.fetchMembers.
    destruct group as [g|]; [|reflexivity].
    destruct open; simpl; [|reflexivity].
    destruct reply; reflexivity.
  - intros now reply st r. subst r. unfold called.
    rewrite handleCreate_run.
    destruct (negb (truthy (trim (CreateGroupDialog.groupName st))));
      [intros H; exfalso; apply H; reflexivity|].
    destruct (CreateGroupDialog.selectedMembers st);
      [intros H; exfalso; apply H; reflexivity|].
    intros _. destruct reply; reflexivity.
  - intros g answer reply st. rewrite handleAddMembers_run.
    destruct answer as [[|c d]|]; try reflexivity.
    destruct reply; reflexivity.
Qed.

(** ** Display names *)

Lemma or_else_truthy a b : truthy b = true -> truthy (or_else a b) = true.
Proof. destruct a as [[|c s]|]; simpl; auto. Qed.


(** ** Logging out *)

Lemma getItem_removeItem_other (k k' : jsstring) (s : Storage) :
  k <> k' -> getItem k (removeItem k' s) = getItem k s.
Proof.
  intros Hk. unfold getItem, removeItem. f_equal.
  induction s as [|[a v] s IH]; [reflexivity|]. simpl.
  destruct (str_eqb a k') eqn:E'; simpl.
  - apply str_eqb_eq in E'. subst a.
    assert (str_eqb k' k = false) as E by (apply str_eqb_neq; congruence).
    rewrite E. exact IH.
  - destruct (str_eqb a k); [reflexivity|exact IH].
Qed.

Lemma getItem_removeItem_same (k : jsstring) (s : Storage) :
  getItem k (removeItem k s) = None.
Proof.
  unfold getItem, removeItem.
  induction s as [|[a v] s IH]; [reflexivity|]. simpl.
  destruct (str_eqb a k) eqn:E; simpl; [exact IH|].
  rewrite E. exact IH.
Qed.

(** X9. Logging out forgets the saved user and goes to the login view,
    but the stored token stays as it was, and no request tells the
    server: the credential that the community page reads on mount is the
    same after the logout as before, so with a token in place the page
    still sends it with the session request instead of redirecting for
    lack of one. *)
Theorem handleLogout_keeps_token st localeTime now me convs dir cs :
  let r := TopNavbar.handleLogout st in
  let st' := state_of r in
  TopNavbar.user st' = None /\
  getItem (lit "user") (TopNavbar.localStorage st') = None /\
  stored_token (TopNavbar.localStorage st')
    = stored_token (TopNavbar.localStorage st) /\
  trace_of r = [Navigate (lit "/login")] /\
  Community.mountEffect (stored_token (TopNavbar.localStorage st'))
    localeTime now me convs dir cs
  = Community.mountEffect (stored_token (TopNavbar.localStorage st))
      localeTime now me convs dir cs.
Proof.
  intros r st'. subst r st'. unfold state_of, trace_of; simpl.
  assert (stored_token (removeItem (lit "user") (TopNavbar.localStorage st))
          = stored_token (TopNavbar.localStorage st)) as E.
  { unfold stored_token. apply getItem_removeItem_other.
    intros H. apply lit_inj in H. discriminate. }
  split; [reflexivity|]. split; [apply getItem_removeItem_same|].
  split; [exact E|]. split; [reflexivity|]. rewrite E. reflexivity.
Qed.

(** ** The thread inside the page *)

(** X10. One send in the rendered thread with a non-blank text posts the
    message to the server twice when the thread's POST resolves: once by
    the thread and once more, with the same conversation id and the same
    text, by the page through [onSendMessage].  When the thread's POST is
    rejected the page is not called and nothing is posted again.  With
    both POSTs resolved the thread's list is the old one with one message
    more at the end, and so is the message list of the page's copy of the
    conversation (its other fields and the other entries as they were),
    and the input is cleared.  The Enter key does the same as the button,
    any other key nothing. *)
Theorem sendClick_posts_twice token now reply reply' v chat :
  Community.selectedChat (CommunityView.community v) = Some chat ->
  trim (ChatThread.message (CommunityView.thread v)) <> [] ->
  let text := ChatThread.message (CommunityView.thread v) in
  let out := CommunityView.sendClick token now reply reply' v in
  let post := Http token (POST_messages (id chat) text) in
  filter isHttp (snd out) =
    match reply with
    | Resolved _ => [post; post]
    | Rejected _ => [post]
    end /\
  (forall sent sent', reply = Resolved sent -> reply' = Resolved sent' ->
     ChatThread.message (CommunityView.thread (fst out)) = [] /\
     (exists m, ChatThread.messages (CommunityView.thread (fst out))
                = ChatThread.messages (CommunityView.thread v) ++ [m] /\
                content m = sent_content sent) /\
     (exists m, content m = text /\ isOwn m = true /\
        Forall2 (fun c c' => (id c = id chat -> gained m c c') /\
                             (id c <> id chat -> c' = c))
          (Community.chats (CommunityView.community v))
          (Community.chats (CommunityView.community (fst out))))) /\
  (forall e, reply = Rejected e -> fst out = v) /\
  CommunityView.handleKeyDown token (lit "Enter") now reply reply' v = out /\
  (forall key, key <> lit "Enter" ->
     CommunityView.handleKeyDown token key now reply reply' v = (v, [])).
Proof.
  intros Hsel Htext text out post. subst out.
  unfold CommunityView.handleKeyDown, CommunityView.sendClick.
  rewrite Hsel, handleSend_run.
  apply truthy_true in Htext. fold text in Htext |- *. rewrite Htext.
  split; [|split; [|split; [|split]]].
  - destruct reply as [sent|e]; simpl; [|reflexivity].
    rewrite handleSendMessage_run. fold text. rewrite Htext.
    destruct reply'; reflexivity.
  - intros sent sent' -> ->. simpl.
    rewrite handleSendMessage_run. fold text. rewrite Htext. simpl.
    split; [reflexivity|]. split.
    + eexists. split; reflexivity.
    + eexists. split; [|split].
      3:{ induction (Community.chats (CommunityView.community v))
            as [|c l IH]; simpl; constructor; [|exact IH].
          destruct (str_eqb (id c) (id chat)) eqn:E.
          - split.
            + intros _. unfold gained; simpl. repeat split; reflexivity.
            + apply str_eqb_eq in E. congruence.
          - apply str_eqb_neq in E. split; [congruence|reflexivity]. }
      * reflexivity.
      * reflexivity.
  - intros e ->. simpl. destruct v; reflexivity.
  - rewrite str_eqb_refl. reflexivity.
  - intros key Hk. apply str_eqb_neq in Hk. rewrite Hk. reflexivity.
Qed.

Lemma sendClick_posts_twice_witness :
  let v := {| CommunityView.community :=
                Community.with_selectedChatId (Some (toString 7))
                  sample_state;
              CommunityView.thread := sample_thread |} in
  let out := CommunityView.sendClick (Some (lit "jwt")) (lit "10:16")
               (Resolved {| sent_id := 41; sent_content := lit " hi " |})
               (Resolved {| sent_id := 42; sent_content := lit " hi " |}) v in
  filter isHttp (snd out)
  = [Http (Some (lit "jwt")) (POST_messages (toString 7) (lit " hi "));
     Http (Some (lit "jwt")) (POST_messages (toString 7) (lit " hi "))] /\
  (exists m, content m = lit " hi " /\ isOwn m = true /\
     Forall2 (fun c c' => (id c = toString 7 -> gained m c c') /\
                          (id c <> toString 7 -> c' = c))
       (Community.chats (CommunityView.community v))
       (Community.chats (CommunityView.community (fst out)))).
Proof.
  intros v out.
  assert (Community.selectedChat (CommunityView.community v)
          = Some (sample_chat 7)) as Hsel by reflexivity.
  assert (trim (ChatThread.message (CommunityView.thread v)) <> []) as Htext
      by (vm_compute; discriminate).
  destruct (@sendClick_posts_twice (Some (lit "jwt")) (lit "10:16")
              (Resolved {| sent_id := 41; sent_content := lit " hi " |})
              (Resolved {| sent_id := 42; sent_content := lit " hi " |})
              v (sample_chat 7) Hsel Htext) as (Hreq & Hboth & _).
  split; [exact Hreq|].
  destruct (Hboth _ _ eq_refl eq_refl) as (_ & _ & Hpage). exact Hpage.
Defined.

Lemma existsb_find {A} (f : A -> bool) (l : list A) :
  existsb f l = true -> exists x, find f l = Some x.
Proof.
  induction l as [|a l IH]; simpl; [discriminate|].
  destruct (f a); [eauto|exact IH].
Qed.

(** X11. After a direct chat was opened successfully the page has a
    selected chat to show: [selectedChat] finds an entry of the list with
    the returned id, whether the entry was there before or was just put
    in front.  After a rejected request the selected chat is the one it
    was. *)
Theorem open_dm_shows_a_thread token now user reply st :
  let st' := state_of (Community.handleOpenDm token now user reply st) in
  (forall conversation, reply = Resolved conversation ->
     exists c, Community.selectedChat st' = Some c /\
               id c = toString (dm_id conversation) /\
               In c (Community.chats st')) /\
  (forall e, reply = Rejected e ->
     Community.selectedChat st' = Community.selectedChat st).
Proof.
  intros st'. subst st'.
  unfold Community.handleOpenDm, with_render. rewrite handleOpenDm_of_run.
  split.
  - intros conversation ->. unfold state_of, Community.selectedChat; simpl.
    set (chatId := toString (dm_id conversation)).
    destruct (existsb (fun c => str_eqb (id c) chatId) (Community.chats st))
      eqn:E; simpl.
    + destruct (existsb_find _ _ E) as [c Hc]. exists c.
      split; [exact Hc|]. apply find_some in Hc. destruct Hc as [Hin Hid].
      apply str_eqb_eq in Hid. split; assumption.
    + rewrite str_eqb_refl. eexists. split; [reflexivity|].
      split; [reflexivity|left; reflexivity].
  - intros e ->. reflexivity.
Qed.

Lemma load_after_rebuild (sid : jsstring) (ms : list Message)
    (g : Chat -> list Message) (l : list Chat) :
  List.map (fun chat => if str_eqb (id chat) sid
                        then with_messages chat ms else chat)
    (List.map (fun c => if str_eqb (id c) sid
                        then with_messages c (g c) else c) l)
  = List.map (fun chat => if str_eqb (id chat) sid
                          then with_messages chat ms else chat) l.
Proof.
  rewrite map_map. apply map_ext. intros c.
  destruct (str_eqb (id c) sid) eqn:E; simpl; rewrite E; reflexivity.
Qed.

(** X12. Loading the messages of a conversation replaces its list by
    what the server sent: doing it twice is the same as once, and a
    message that [handleSendMessage] appended before is kept only if the
    server list has it, the state after send-then-load being the state
    after the load alone.  Every entry with the conversation's id then
    holds exactly one message per server message. *)
Theorem loaded_messages_replace_the_list
    token localeTime sid res now content reply st :
  sid <> [] ->
  let load := fun s =>
    state_of (Community.fetchMessagesEffect token localeTime (Some sid)
                (Resolved res) s) in
  load (load st) = load st /\
  load (state_of (Community.handleSendMessage token now sid content reply st))
    = load st /\
  (forall c, In c (Community.chats (load st)) -> id c = sid ->
     messages c = List.map (Community.formatMessage localeTime) res /\
     List.length (messages c) = List.length res).
Proof.
  intros Hsid load. subst load. cbv beta.
  rewrite !fetchMessagesEffect_run, handleSendMessage_run.
  destruct sid as [|x s]; [congruence|]. cbv zeta.
  split; [|split].
  - unfold state_of; simpl. unfold Community.with_chats; simpl. f_equal.
    apply (load_after_rebuild (x :: s) _ (fun _ => _)).
  - destruct (truthy (trim content)); [|reflexivity].
    destruct reply as [sent|e]; [|reflexivity].
    unfold state_of; simpl. unfold Community.with_chats; simpl. f_equal.
    apply (load_after_rebuild (x :: s) _ (fun c => messages c ++ [_])).
  - unfold state_of; simpl. intros c Hin Hid.
    apply in_map_iff in Hin. destruct Hin as [c0 [<- _]].
    destruct (str_eqb (id c0) (x :: s)) eqn:E.
    + simpl. split; [reflexivity|apply length_map].
    + simpl in Hid. apply str_eqb_neq in E. contradiction.
Qed.

Lemma loaded_messages_replace_the_list_witness :
  let load := fun s =>
    state_of (Community.fetchMessagesEffect (Some (lit "jwt")) (fun d => d)
                (Some (toString 7))
                (Resolved [ {| smsg_id := 3; smsg_content := lit "hello";
                               smsg_createdAt := lit "2025-01-01";
                               smsg_sender := None |} ]) s) in
  load (state_of (Community.handleSendMessage (Some (lit "jwt"))
                    (lit "10:16") (toString 7) (lit "hi")
                    (Resolved {| sent_id := 41; sent_content := lit "hi" |})
                    sample_state))
  = load sample_state.
Proof.
  intros load.
  refine (proj1 (proj2 (@loaded_messages_replace_the_list
            (Some (lit "jwt")) (fun d => d) (toString 7)
            [ {| smsg_id := 3; smsg_content := lit "hello";
                 smsg_createdAt := lit "2025-01-01";
                 smsg_sender := None |} ]
            (lit "10:16") (lit "hi")
            (Resolved {| sent_id := 41; sent_content := lit "hi" |})
            sample_state _))).
  vm_compute. discriminate.
Defined.

(** ** What every entry of a session looks like *)

Section SessionEntries.

Variable token : option jsstring.
Variable localeTime : jsstring -> jsstring.

(** A property of entries that the three ways into the list establish
    and the two ways of rebuilding an entry keep. *)
Variable P : Chat -> Prop.

Hypothesis P_formatChat :
  forall now conv, P (Community.formatChat localeTime now conv).

Hypothesis P_group :
  forall now group,
    P {| id := toString (group_id group); name := group_name group;
         isGroup := true; isFavorite := false; unread := 0%N;
         timestamp := now;
         members := match group_members group with
                    | Some ms => ms
                    | None => []
                    end;
         messages := []; type := Some GROUP |}.

Hypothesis P_dm :
  forall now user conversation,
    P {| id := toString (dm_id conversation); name := user_name user;
         isGroup := false;
         isFavorite := false; unread := 0%N; timestamp := now;
         members := [FromUser user]; messages := []; type := Some USER |}.

Hypothesis P_with_messages :
  forall c ms, P c -> P (with_messages c ms).

Hypothesis P_with_isFavorite :
  forall c b, P c -> P (with_isFavorite c b).

Lemma Forall_map_rebuild (f : Chat -> Chat) (l : list Chat) :
  (forall c, P c -> P (f c)) -> Forall P l -> Forall P (List.map f l).
Proof.
  intros Hf H. induction H; simpl; constructor; auto.
Qed.

Lemma rerender_entries before msgs st :
  Forall P (Community.chats st) ->
  exists st' t,
    Community.rerender token localeTime before msgs st = (Normal tt, st', t) /\
    Forall P (Community.chats st') /\
    Community.loading st' = Community.loading st.
Proof.
  intros Hc. unfold Community.rerender, with_render.
  destruct (Community.same_selection before (Community.selectedChatId st));
    [exists st, []; split; [reflexivity|split; [assumption|reflexivity]]|].
  rewrite fetchMessagesEffect_run.
  destruct (Community.selectedChatId st) as [[|x s]|];
    try (exists st, []; split; [reflexivity|split; [assumption|reflexivity]]).
  destruct msgs as [res|e]; eexists _, _; (split; [reflexivity|]).
  - split; [|reflexivity]. simpl. apply Forall_map_rebuild; [|exact Hc].
    intros c Hp. destruct (str_eqb (id c) (x :: s)); auto.
  - split; [assumption|reflexivity].
Qed.

Lemma act_entries a st :
  Forall P (Community.chats st) ->
  exists st' t,
    Community.act token localeTime a st = (Normal tt, st', t) /\
    Forall P (Community.chats st') /\
    Community.loading st' = Community.loading st.
Proof.
  intros Hc.
  unfold Community.act, with_render. destruct a as
    [chatId msgs | now user reply msgs | now content reply
     | now newGroup reply | chatId].
  - destruct (@rerender_entries (Community.selectedChatId st) msgs
                (Community.with_selectedChatId (Some chatId) st) Hc)
      as (st' & t & Hrun & Hg).
    exists st', t. split; [|exact Hg].
    unfold bind, Community.setSelectedChatId, modify. rewrite Hrun.
    reflexivity.
  - unfold bind, Community.handleOpenDm, with_render.
    rewrite handleOpenDm_of_run. destruct reply as [conversation|e].
    + cbv zeta.
      set (s1 := Community.with_selectedChatId _ _).
      assert (Forall P (Community.chats s1) /\
              Community.loading s1 = Community.loading st) as [Hc1 Hl1].
      { subst s1. destruct (existsb _ (Community.chats st)); simpl;
          split; simpl; auto. }
      destruct (@rerender_entries (Community.selectedChatId st) msgs s1 Hc1)
        as (st' & t & Hrun & Hc' & Hl').
      exists st', ([Http token (POST_conversations_dm (user_id user))] ++ t).
      rewrite Hrun. split; [reflexivity|]. split; [exact Hc'|congruence].
    + destruct (@rerender_entries (Community.selectedChatId st) msgs st Hc)
        as (st' & t & Hrun & Hg).
      eexists st', (_ ++ t). rewrite Hrun. split; [reflexivity|exact Hg].
  - destruct (Community.selectedChat st) as [c0|];
      [|exists st, []; split; [reflexivity|split; [assumption|reflexivity]]].
    rewrite handleSendMessage_run.
    destruct (truthy (trim content));
      [|exists st, []; split; [reflexivity|split; [assumption|reflexivity]]].
    destruct reply as [res|e]; eexists _, _; (split; [reflexivity|]).
    + split; [|reflexivity]. simpl. apply Forall_map_rebuild; [|exact Hc].
      intros c Hp. destruct (str_eqb (id c) (id c0)); auto.
    + split; [assumption|reflexivity].
  - rewrite handleCreateGroup_run.
    destruct reply as [group|e]; eexists _, _; (split; [reflexivity|]).
    + split; [|reflexivity]. simpl. constructor; auto.
    + split; [assumption|reflexivity].
  - rewrite handleToggleFavorite_run.
    eexists _, _. split; [reflexivity|].
    destruct chatId as [[|x cid]|];
      try (split; [assumption|reflexivity]).
    split; [|reflexivity]. simpl. apply Forall_map_rebuild; [|exact Hc].
    intros c Hp. destruct (str_eqb (id c) (x :: cid)); auto.
Qed.

Lemma acts_entries l st :
  Forall P (Community.chats st) ->
  exists st' t,
    Community.acts token localeTime l st = (Normal tt, st', t) /\
    Forall P (Community.chats st') /\
    Community.loading st' = Community.loading st /\
    (Community.loading st = false ->
       gated_acts token localeTime l st = (Normal tt, st', t)).
Proof.
  revert st. induction l as [|a l IH]; intros st Hc; simpl.
  - exists st, []. repeat split; auto.
  - destruct (act_entries a st Hc) as (s1 & t1 & Hrun1 & Hc1 & Hl1).
    destruct (IH _ Hc1) as (s2 & t2 & Hrun2 & Hc2 & Hl2 & Hgated).
    exists s2, (t1 ++ t2). unfold bind, gated_act, with_render.
    rewrite Hrun1, Hrun2.
    split; [reflexivity|]. split; [exact Hc2|]. split; [congruence|].
    intros Hl. rewrite Hl, Hrun1, Hgated; [reflexivity|congruence].
Qed.

Lemma mount_entries now me convs dir :
  exists st t,
    Community.mountEffect token localeTime now me convs dir Community.initial
      = (Normal tt, st, t) /\
    Forall P (Community.chats st) /\
    (Community.loading st = false <->
       truthy_opt token = true /\ exists who, me = Resolved who).
Proof.
  rewrite mountEffect_run.
  destruct (truthy_opt token).
  - destruct me as [who|e].
    + destruct convs as [[data|]|e], dir as [us|e'];
        eexists _, _; (split; [reflexivity|]); simpl;
        (split; [try (apply Forall_forall; intros c Hin;
                      apply in_map_iff in Hin;
                      destruct Hin as [conv [<- _]]; apply P_formatChat);
                 try constructor
                |split; [intros _; split; [reflexivity|eauto]|reflexivity]]).
    + eexists _, _. split; [reflexivity|]. split; [constructor|].
      simpl. split; [discriminate|]. intros [_ [who H]]. discriminate.
  - eexists _, _. split; [reflexivity|]. split; [constructor|].
    simpl. split; [discriminate|]. intros [H _]. discriminate.
Qed.

Lemma session_entries now me convs dir l :
  Forall P
    (Community.chats
       (state_of (Community.session token localeTime now me convs dir l))).
Proof.
  unfold Community.session, bind.
  destruct (mount_entries now me convs dir) as (s1 & t1 & Hrun1 & Hc1 & _).
  destruct (acts_entries l s1 Hc1) as (s2 & t2 & Hrun2 & Hc2 & _).
  rewrite Hrun1, Hrun2. exact Hc2.
Qed.

End SessionEntries.

(** X13. In every session, whatever the user does and the server
    answers, an entry of type [USER] is a direct chat ([isGroup] false)
    whose member list is exactly the user it was opened for and whose
    name is that user's, so the row click [handleOpenDm(item.members[0])]
    always has its user; and an entry with [isGroup] true has type
    [GROUP], so a group row is never sent to [handleOpenDm]. *)
Theorem user_rows_carry_their_user token localeTime now me convs dir l :
  Forall (fun c => user_row_ok c /\ (isGroup c = true -> type c = Some GROUP))
    (Community.chats
       (state_of (Community.session token localeTime now me convs dir l))).
Proof.
  apply session_entries; unfold user_row_ok; simpl.
  - intros _ conv. split; [discriminate|reflexivity].
  - intros _ group. split; [discriminate|reflexivity].
  - intros _ user _. split; [|discriminate].
    intros _. split; [reflexivity|]. exists user. split; reflexivity.
  - intros c ms H. exact H.
  - intros c b H. exact H.
Qed.

(** X14. The unread counter is never counted up: in every session,
    whatever the user does and the server answers, every entry of the
    list has [unread = 0]. *)
Theorem unread_is_always_zero token localeTime now me convs dir l :
  Forall (fun c => unread c = 0%N)
    (Community.chats
       (state_of (Community.session token localeTime now me convs dir l))).
Proof.
  apply session_entries; simpl; auto.
Qed.

(** ** The loading screen *)

Lemma gated_acts_while_loading token localeTime l st :
  Community.loading st = true ->
  gated_acts token localeTime l st = (Normal tt, st, []).
Proof.
  intros Hl. induction l as [|a l IH]; [reflexivity|]. simpl.
  unfold bind, gated_act, with_render. rewrite Hl. simpl. rewrite IH.
  reflexivity.
Qed.

(** X15. The loading screen is a gate.  When the credential is missing
    or the session check is rejected, [loading] stays true, so whatever
    the user tries afterwards the state stays the initial one and the
    only request ever sent is the session check (none without a
    credential).  When the check resolved, [loading] is false after the
    mount whatever the two loaders met, and the page behaves as if there
    were no gate. *)
Theorem loading_screen_is_a_gate token localeTime now me convs dir l :
  let r := gated_session token localeTime now me convs dir l in
  (truthy_opt token = false \/ (exists e, me = Rejected e) ->
     state_of r = Community.initial /\
     requests_of r = (if truthy_opt token
                      then [Http token GET_auth_me] else []) /\
     In (Navigate (lit "/login")) (trace_of r)) /\
  (truthy_opt token = true -> forall who, me = Resolved who ->
     r = Community.session token localeTime now me convs dir l /\
     Community.loading (state_of r) = false).
Proof.
  intros r. subst r. unfold gated_session, Community.session, bind.
  split.
  - intros Hfail. rewrite mountEffect_run.
    assert (Community.loading Community.initial = true) as Hl by reflexivity.
    destruct (truthy_opt token).
    + destruct Hfail as [H|[e ->]]; [discriminate|].
      rewrite (gated_acts_while_loading _ _ _ _ Hl).
      unfold state_of, requests_of, trace_of; simpl. auto.
    + rewrite (gated_acts_while_loading _ _ _ _ Hl).
      unfold state_of, requests_of, trace_of; simpl. auto.
  - intros Ht who ->.
    destruct (@mount_entries token localeTime (fun _ => True)
                (fun _ _ => I) now (Resolved who) convs dir)
      as (s1 & t1 & Hrun1 & Hc1 & Hload).
    assert (Community.loading s1 = false) as Hl
        by (apply Hload; split; [exact Ht|eauto]).
    destruct (@acts_entries token localeTime (fun _ => True)
                (fun _ _ => I) (fun _ _ _ => I) (fun _ _ _ => I)
                (fun _ _ _ => I) l s1 Hc1)
      as (s2 & t2 & Hrun2 & _ & Hl2 & Hgated).
    rewrite Hrun1, Hrun2, (Hgated Hl).
    split; [reflexivity|]. unfold state_of; simpl. congruence.
Qed.

(** ** The tabs *)

Lemma startsWith_spec (s p : jsstring) :
  startsWith s p = true <-> exists q, s = p ++ q.
Proof.
  revert s. induction p as [|x p IH]; intros s; simpl.
  - split; [intros _; exists s; reflexivity|reflexivity].
  - destruct s as [|y s].
    + split; [discriminate|intros [q H]; discriminate].
    + rewrite andb_true_iff, N.eqb_eq, IH. split.
      * intros [-> [q ->]]. exists q. reflexivity.
      * intros [q H]. inversion H; subst. split; [reflexivity|eauto].
Qed.

Lemma includes_spec (s sub : jsstring) :
  includes s sub = true <-> exists p q, s = p ++ sub ++ q.
Proof.
  induction s as [|y s IH]; simpl.
  - rewrite orb_false_r, startsWith_spec. split.
    + intros [q H]. exists [], q. exact H.
    + intros [p [q H]]. destruct p; [exists q; exact H|discriminate].
  - rewrite orb_true_iff, startsWith_spec, IH. split.
    + intros [[q H]|[p [q H]]].
      * exists [], q. exact H.
      * exists (y :: p), q. simpl. congruence.
    + intros [p [q H]]. destruct p as [|z p].
      * left. exists q. exact H.
      * right. exists p, q. simpl in H. congruence.
Qed.

(** X16. What the tabs list.  A chat is in the filtered list exactly when
    it is loaded and its lower-cased name contains the lower-cased search
    term as a contiguous piece; the order is that of the loaded list.  A
    row of the "All" tab is such a chat or the row of a directory user
    whose name matches; the Favorites and Groups tabs only hold loaded
    chats, so a directory user never shows there; the Users tab holds
    the directory users whose name matches.  When the lower-cased search
    term is empty no chat is hidden. *)
Theorem tabs_list_matching_rows toLowerCase st :
  let term := toLowerCase (Community.searchTerm st) in
  let shown := CommunityLists.filteredChats toLowerCase st in
  (forall c, In c shown <->
     In c (Community.chats st) /\
     exists p q, toLowerCase (name c) = p ++ term ++ q) /\
  (exists keep, shown = filter keep (Community.chats st)) /\
  (forall row, In row (CommunityLists.allTab toLowerCase st) <->
     (In row shown \/
      exists u, In u (Community.users st) /\
                row = CommunityLists.userRow u) /\
     exists p q, toLowerCase (name row) = p ++ term ++ q) /\
  (forall c, In c (CommunityLists.favoritesTab toLowerCase st) ->
     In c (Community.chats st) /\ isFavorite c = true) /\
  (forall c, In c (CommunityLists.groupsTab toLowerCase st) ->
     In c (Community.chats st) /\ isGroup c = true) /\
  (forall u, In u (CommunityLists.usersTab toLowerCase st) <->
     In u (Community.users st) /\
     exists p q, toLowerCase (user_name u) = p ++ term ++ q) /\
  (term = [] -> shown = Community.chats st).
Proof.
  intros term shown. subst term shown.
  unfold CommunityLists.allTab, CommunityLists.favoritesTab,
    CommunityLists.groupsTab, CommunityLists.usersTab,
    CommunityLists.combinedAll, CommunityLists.filteredChats,
    CommunityLists.matches.
  split; [|split; [|split; [|split; [|split; [|split]]]]].
  - intros c. rewrite filter_In, includes_spec. reflexivity.
  - eexists. reflexivity.
  - intros row. rewrite filter_In, in_app_iff, in_map_iff, includes_spec.
    split; intros [H Hm]; (split; [|exact Hm]).
    + destruct H as [H|[u [E Hu]]]; [left; exact H|right; eauto].
    + destruct H as [H|[u [Hu E]]]; [left; exact H|right; eauto].
  - intros c H. apply filter_In in H. destruct H as [H Hf].
    apply filter_In in H. split; [apply H|exact Hf].
  - intros c H. apply filter_In in H. destruct H as [H Hf].
    apply filter_In in H. split; [apply H|exact Hf].
  - intros u. rewrite filter_In, includes_spec. reflexivity.
  - intros Ht. rewrite Ht.
    induction (Community.chats st) as [|c l IH]; [reflexivity|]. simpl.
    assert (includes (toLowerCase (name c)) [] = true) as E
        by (apply includes_spec; exists [], (toLowerCase (name c));
            reflexivity).
    rewrite E. f_equal. exact IH.
Qed.

Lemma toString_not_user_row (z : Z) (s : jsstring) :
  toString z <> lit "user-" ++ s.
Proof.
  unfold toString. destruct z as [|p|p]; simpl; try discriminate.
  destruct (Pos.to_uint p); simpl; discriminate.
Qed.

(** X17. The star of a directory-user row in the "All" tab does nothing.
    The row's id is "user-" followed by the user id, while in every
    session the ids of the loaded chats are decimal numerals, so
    [handleToggleFavorite] with the row's id finds no entry: the state is
    unchanged and nothing is sent. *)
Theorem star_on_user_row_is_a_noop
    token localeTime now me convs dir l u :
  let st := state_of (Community.session token localeTime now me convs dir l) in
  let r := Community.handleToggleFavorite
             (Some (id (CommunityLists.userRow u))) st in
  ~ In (id (CommunityLists.userRow u)) (ids (Community.chats st)) /\
  r = (Normal tt, st, []).
Proof.
  intros st r. subst r.
  assert (Forall (fun c => exists z, id c = toString z) (Community.chats st))
    as Hnum.
  { subst st. apply session_entries; simpl; eauto. }
  assert (~ In (id (CommunityLists.userRow u))
            (ids (Community.chats st))) as Hn.
  { unfold ids. intros Hin. apply in_map_iff in Hin.
    destruct Hin as [c [Hid Hc]].
    rewrite Forall_forall in Hnum. destruct (Hnum c Hc) as [z Hz].
    simpl in Hid. rewrite Hz in Hid.
    exact (@toString_not_user_row z (user_id u) Hid). }
  split; [exact Hn|].
  rewrite handleToggleFavorite_run. simpl.
  f_equal. f_equal.
  destruct st as [af sel sgi scg term chats us ld]; simpl in *.
  unfold Community.with_chats; simpl. f_equal.
  apply map_ext_id. intros c Hc.
  destruct (str_eqb (id c) _) eqn:E; [|reflexivity].
  apply str_eqb_eq in E. exfalso. apply Hn. unfold ids.
  rewrite <- E. apply in_map. exact Hc.
Qed.
